(** * TemporalObject: a rolling history of states

    A shallow embedding of [temporal/main.py] (class [TemporalObject]) and
    of the two containers it is built on:

    - [collections.deque] with an optional [maxlen] (Python standard
      library), embedded in module [Deque];
    - [temporal.util.LimitedDict], embedded in module [LimitedDict].

    Python exceptions are values of type [exn]; a call that may raise returns
    a [result].  Python integers are [Z]; a validated, non-negative capacity
    is a [nat].  [Py_ssize_t] is that of a 64-bit platform.  The random identifier drawn by [uuid.uuid4()] is an explicit
    argument of [update]. *)

From Stdlib Require Import ZArith Lia.
From stdpp Require Import base option list strings gmap.

Set Default Proof Using "Type".

(** ** Exceptions and results *)

Inductive exn : Type :=
| IndexError
| TypeError
| ValueError
| OverflowError.

Inductive result (A : Type) : Type :=
| Ok (a : A)
| Raise (e : exn).

Arguments Ok {A} a.
Arguments Raise {A} e.

Definition bind {A B : Type} (r : result A) (k : A → result B) : result B :=
  match r with
  | Ok a => k a
  | Raise e => Raise e
  end.

Notation "'let!' x ':=' r 'in' k" := (bind r (λ x, k))
  (at level 10, x name, r at level 100, k at level 200).

Fixpoint mapM {A B : Type} (f : A → result B) (l : list A) : result (list B) :=
  match l with
  | [] => Ok []
  | x :: l' =>
      let! y := f x in
      let! ys := mapM f l' in
      Ok (y :: ys)
  end.

(** ** [collections.deque]: the operations [TemporalObject] uses *)

Module Deque.
Section deque.
Context {A : Type}.

Record deque : Type := Build {
  maxlen : option nat;
  items : list A            (* oldest first: [items !! 0] is the left end *)
}.

(** The largest [Py_ssize_t] of CPython on a 64-bit platform. *)
Definition PY_SSIZE_T_MAX : Z := 9223372036854775807.

(** [deque(maxlen=m)]: [None] is unbounded.  An integer bound is converted
    to a [Py_ssize_t], which fails with [OverflowError] when it does not fit;
    a negative bound is then refused with [ValueError]. *)
Definition new (m : option Z) : result deque :=
  match m with
  | None => Ok (Build None [])
  | Some z =>
      if ((z <? - PY_SSIZE_T_MAX - 1) || (PY_SSIZE_T_MAX <? z))%Z then
        Raise OverflowError
      else if (z <? 0)%Z then Raise ValueError
      else Ok (Build (Some (Z.to_nat z)) [])
  end.

(** [d.append(x)]: the item goes to the right end; a bounded deque that
    has grown past [maxlen] drops its left-most item. *)
Definition append (d : deque) (x : A) : deque :=
  let l := items d ++ [x] in
  Build (maxlen d)
    match maxlen d with
    | Some m => if m <? length l then tail l else l
    | None => l
    end.

(** [len(d)] *)
Definition len (d : deque) : Z := Z.of_nat (length (items d)).

(** [d[i]]: a negative index counts from the right end. *)
Definition getitem (d : deque) (i : Z) : result A :=
  let i := if (i <? 0)%Z then (i + len d)%Z else i in
  if ((i <? 0) || (len d <=? i))%Z then Raise IndexError
  else
    match items d !! Z.to_nat i with
    | Some x => Ok x
    | None => Raise IndexError
    end.
End deque.
Arguments deque A : clear implicits.
End Deque.

(** ** Slices: [slice.indices] and [range] *)

Record slice : Type := Slice {
  start : option Z;
  stop : option Z;
  step : option Z
}.

(** [slice(start, stop, step).indices(length)] for [0 <= length]. *)
Definition slice_indices (s : slice) (length : Z) : result (Z * Z * Z) :=
  let stp := default 1%Z (step s) in
  if (stp =? 0)%Z then Raise ValueError
  else
    let negative := (stp <? 0)%Z in
    let lower := if negative then (-1)%Z else 0%Z in
    let upper := if negative then (length - 1)%Z else length in
    let clamp (v : Z) : Z :=
      if (v <? 0)%Z then
        let v := (v + length)%Z in
        if (v <? lower)%Z then lower else v
      else
        if (upper <? v)%Z then upper else v in
    let sta :=
      match start s with
      | None => if negative then upper else lower
      | Some v => clamp v
      end in
    let sto :=
      match stop s with
      | None => if negative then lower else upper
      | Some v => clamp v
      end in
    Ok (sta, sto, stp).

(** [len(range(start, stop, step))] for [step <> 0]. *)
Definition range_len (start stop step : Z) : nat :=
  if (0 <? step)%Z then
    if (start <? stop)%Z then Z.to_nat ((stop - start - 1) / step + 1) else 0
  else
    if (stop <? start)%Z then Z.to_nat ((start - stop - 1) / (- step) + 1) else 0.

(** [list(range(start, stop, step))] *)
Definition range (start stop step : Z) : list Z :=
  (λ k : nat, (start + Z.of_nat k * step)%Z) <$> seq 0 (range_len start stop step).

(** ** Slicing a list by the standard semantics

    The reference against which the [slice] branch of [__getitem__] is
    compared: the slice [l[start:stop:step]] of a list with the standard
    clamping semantics, in which a bound that is out of range is clamped and
    is no error.  It is written with [take], [drop] and [reverse] and does
    not go through [slice.indices] or [range]. *)

(** A bound [v] of a slice over [length] items: a negative bound counts from
    the end, and the result is clamped between [lower] and [upper]. *)
Definition clamp (lower upper length v : Z) : Z :=
  let v := if (v <? 0)%Z then (v + length)%Z else v in
  Z.max lower (Z.min upper v).

(** The items of [l] at the positions [skip], [skip + k], [skip + 2 k], ... *)
Fixpoint stride_from {A : Type} (k skip : nat) (l : list A) : list A :=
  match l with
  | [] => []
  | x :: l' =>
      match skip with
      | 0 => x :: stride_from k (k - 1) l'
      | S skip' => stride_from k skip' l'
      end
  end.

(** Every [k]-th item of [l], from the first. *)
Definition stride {A : Type} (k : nat) (l : list A) : list A :=
  stride_from k 0 l.

(** [l[start:stop:step]].  With a positive step the bounds default to the
    two ends and are clamped into [0 .. len]; the slice is every [step]-th
    item of the positions from [start] up to, and without, [stop].  With a
    negative step the bounds default to the last item and to before the
    first, and are clamped into [-1 .. len - 1]; the slice is every
    [|step|]-th item of the positions from [start] down to, and without,
    [stop].  A zero step is refused with [ValueError]. *)
Definition list_slice {A : Type} (l : list A) (s : slice) : result (list A) :=
  let n := Z.of_nat (length l) in
  let k := default 1%Z (step s) in
  if (k =? 0)%Z then Raise ValueError
  else if (0 <? k)%Z then
    let i := from_option (clamp 0 n n) 0%Z (start s) in
    let j := from_option (clamp 0 n n) n (stop s) in
    Ok (stride (Z.to_nat k) (drop (Z.to_nat i) (take (Z.to_nat j) l)))
  else
    let i := from_option (clamp (-1) (n - 1) n) (n - 1)%Z (start s) in
    let j := from_option (clamp (-1) (n - 1) n) (-1)%Z (stop s) in
    Ok (stride (Z.to_nat (- k))
          (reverse (drop (Z.to_nat (j + 1)) (take (Z.to_nat (i + 1)) l)))).

(** ** [temporal.util.LimitedDict] *)

Module LimitedDict.
Section limited_dict.
Context {V : Type}.

(** Modelled from the spec: the class [LimitedDict] of [temporal/util.py],
    which [main.py] imports.  It is a mapping from identifier to snapshot
    with an optional maximum entry count that evicts in insertion order,
    oldest first.  The entries are kept as an association list in insertion
    order, at most one entry per key; a capacity of [None] or [0] means no
    bound. *)
Record t : Type := Build {
  maxlen : option nat;
  entries : list (string * V)     (* oldest inserted first *)
}.

(** Modelled from the spec: the constructor [LimitedDict(maxlen)], an empty
    mapping with the given capacity. *)
Definition new (maxlen : option nat) : t := Build maxlen [].

(** Modelled from the spec: the keys of [LimitedDict], in insertion order. *)
Definition keys (d : t) : list string := (entries d).*1.

(** Modelled from the spec: the capacity test of [LimitedDict]; a capacity
    that is unset or [0] bounds nothing. *)
Definition bound (d : t) : option nat :=
  match maxlen d with
  | Some (S c) => Some (S c)
  | _ => None
  end.

(** Modelled from the spec: [LimitedDict.__contains__], [key in d]. *)
Definition contains (d : t) (key : string) : bool :=
  bool_decide (key ∈ keys d).

(** Modelled from the spec: [LimitedDict.get], the value for [key], or
    [default] if absent; it never fails. *)
Definition get (d : t) (key : string) (default : option V) : option V :=
  match list_find (λ e, e.1 = key) (entries d) with
  | Some (_, e) => Some e.2
  | None => default
  end.

(** Modelled from the spec: [LimitedDict.__setitem__], which inserts or
    overwrites.  An existing key keeps its place and takes the new value.
    Inserting a new key at capacity first evicts the oldest surviving
    entries, as many as needed to respect the cap; the new entry becomes
    the youngest. *)
Definition setitem (d : t) (key : string) (value : V) : t :=
  if contains d key then
    Build (maxlen d)
      ((λ e, if decide (e.1 = key) then (key, value) else e) <$> entries d)
  else
    let kept :=
      match bound d with
      | Some c => drop (S (length (entries d)) - c) (entries d)
      | None => entries d
      end in
    Build (maxlen d) (kept ++ [(key, value)]).
End limited_dict.
Arguments t V : clear implicits.
End LimitedDict.

(** ** [TemporalObject] *)

Module TemporalObject.
Section temporal_object.
(** [St] is the type of the states handed to [update]. *)
Context {St : Type}.

Record t : Type := Build {
  _buffer : Deque.deque St;
  _id_index : LimitedDict.t St
}.

(** [TemporalObject(temporal_depth)] *)
Definition __init__ (temporal_depth : option Z) : result t :=
  let! buffer := Deque.new temporal_depth in
  Ok (Build buffer (LimitedDict.new (Z.to_nat <$> temporal_depth))).

Definition _add (self : t) (id : string) (state : St) : t :=
  let id_index := LimitedDict.setitem (_id_index self) id state in
  Build (Deque.append (_buffer self) state) id_index.

(** [self.update(object_state, temporal_id)]; [uuid4] is the string that
    [str(uuid.uuid4())] yields when this call draws it.  The result is the
    identifier returned and the object after the call. *)
Definition update (self : t) (object_state : St) (temporal_id : option string)
    (uuid4 : string) : string * t :=
  let temporal_id :=
    match temporal_id with
    | None => uuid4
    | Some id => id
    end in
  (temporal_id, _add self temporal_id object_state).

Definition _get_by_temporal_id (self : t) (temporal_id : string) : option St :=
  LimitedDict.get (_id_index self) temporal_id None.

Definition __len__ (self : t) : Z := Deque.len (_buffer self).

Definition __contains__ (self : t) (key : string) : bool :=
  LimitedDict.contains (_id_index self) key.


Definition __iter__ (self : t) : list St := Deque.items (_buffer self).

(** The argument of [self[index]]: an [int], a [slice], a [str], or a value
    of any other type. *)
Inductive index : Type :=
| Int (i : Z)
| Slc (s : slice)
| Str (s : string)
| Other.

(** What [self[index]] evaluates to: one state, a list of states, or
    [None]. *)
Inductive item : Type :=
| State (s : St)
| States (l : list St)
| NoState.

(** The [int] branch of [__getitem__]. *)
Definition getitem_int (self : t) (index : Z) : result St :=
  let index := if (index <? 0)%Z then Z.abs index else index in
  if ((index <? 0) || (Deque.len (_buffer self) <=? index))%Z then
    Raise IndexError
  else Deque.getitem (_buffer self) (-1 - index).

(** The [slice] branch of [__getitem__]. *)
Definition getitem_slice (self : t) (index : slice) : result (list St) :=
  let! bounds := slice_indices index (Deque.len (_buffer self)) in
  let '(start, stop, step) := bounds in
  mapM (Deque.getitem (_buffer self)) (range start stop step).

Definition __getitem__ (self : t) (index : index) : result item :=
  match index with
  | Int i => let! s := getitem_int self i in Ok (State s)
  | Slc s => let! l := getitem_slice self s in Ok (States l)
  | Str id =>
      Ok match _get_by_temporal_id self id with
         | Some s => State s
         | None => NoState
         end
  | Other => Raise TypeError
  end.

(** [self.recent(n)], that is [self[-n:]]. *)
Definition recent (self : t) (n : Z) : result item :=
  __getitem__ self (Slc (Slice (Some (- n)%Z) None None)).

(** The property [self.current], that is [self._buffer[-1]]. *)
Definition current (self : t) : result St :=
  Deque.getitem (_buffer self) (-1).
End temporal_object.
Arguments t St : clear implicits.

Section get.
(** A state is a [dict] from field names to values of type [V]. *)
Context {V : Type}.

(** [self.get(key, relative_index, default)]: the condition
    [key in self[relative_index]] is evaluated first, and
    [self[relative_index][key]] only when it holds. *)
Definition get (self : t (gmap string V)) (key : string)
    (relative_index : Z) (default : V) : result V :=
  let! state := getitem_int self relative_index in
  if bool_decide (is_Some (state !! key)) then
    let! state := getitem_int self relative_index in
    match state !! key with
    | Some v => Ok v
    | None => Ok default
    end
  else Ok default.
End get.
End TemporalObject.

(** ** Sequences of [update] calls *)

Section calls.
Context {St : Type}.

(** The arguments of one call [self.update(object_state, temporal_id)],
    with the identifier [uuid4] that the call would draw. *)
Record call : Type := Call {
  object_state : St;
  temporal_id : option string;
  uuid4 : string
}.

(** The identifier that the call returns. *)
Definition call_id (c : call) : string :=
  default (uuid4 c) (temporal_id c).

(** The object after the call. *)
Definition after (self : TemporalObject.t St) (c : call) : TemporalObject.t St :=
  (TemporalObject.update self (object_state c) (temporal_id c) (uuid4 c)).2.

(** The object after a sequence of calls, first call first. *)
Definition run (self : TemporalObject.t St) (calls : list call) : TemporalObject.t St :=
  foldl after self calls.

(** The last [n] elements of a list. *)
Definition lastn {A : Type} (n : nat) (l : list A) : list A :=
  drop (length l - n) l.

(** The calls whose states a buffer of the given capacity still holds:
    all of them without a bound, the last [c] with bound [c]. *)
Definition window (maxlen : option nat) (calls : list call) : list call :=
  match maxlen with
  | Some c => lastn c calls
  | None => calls
  end.

(** The entry that the call registers in the identifier index. *)
Definition entry (c : call) : string * St := (call_id c, object_state c).

(** The identifiers of the calls whose states the buffer of [self] holds
    when [self] is the object reached by [calls] (see [buffer_run]). *)
Definition buffer_ids (self : TemporalObject.t St) (calls : list call) : list string :=
  call_id <$>
    window (Deque.maxlen (TemporalObject._buffer self)) calls.

(** The identifiers that lookup retrieves are exactly those of the states
    in the buffer. *)
Definition consistent (self : TemporalObject.t St) (calls : list call) : Prop :=
  ∀ id, TemporalObject.__contains__ self id = true ↔ id ∈ buffer_ids self calls.

(** The index [d] holds [(id, s)], no older entry has the key [id], and at
    most [j] entries are younger. *)
Definition holds (d : LimitedDict.t St) (id : string) (s : St) (j : nat) : Prop :=
  ∃ older younger,
    LimitedDict.entries d = older ++ (id, s) :: younger ∧
    (id ∉ older.*1) ∧
    length younger ≤ j.
End calls.
Arguments call St : clear implicits.

(** * Properties *)

(** ** Lists: the last [n] elements *)

Section lastn.
Context {A : Type}.
Implicit Types l : list A.

Lemma length_lastn n l : length (lastn n l) = n `min` length l.
Proof. unfold lastn. rewrite length_drop. lia. Qed.

Lemma lastn_ge n l : length l ≤ n → lastn n l = l.
Proof. intros Hn. unfold lastn. by replace (length l - n) with 0 by lia. Qed.

Lemma fmap_lastn {B} (f : A → B) n l : f <$> lastn n l = lastn n (f <$> l).
Proof. unfold lastn. by rewrite fmap_drop, length_fmap. Qed.

Lemma fmap_subseteq {B} (f : A → B) l k : l ⊆ k → ∀ y, y ∈ f <$> l → y ∈ f <$> k.
Proof.
  intros Hlk y (x & -> & Hx)%list_elem_of_fmap.
  apply list_elem_of_fmap. exists x. split; [done|]. by apply Hlk.
Qed.

Lemma lastn_snoc_shift n l x :
  length l ≥ n → lastn n (l ++ [x]) = drop 1 (lastn n l ++ [x]).
Proof.
  intros Hn. unfold lastn. rewrite length_app. simpl.
  rewrite <- (drop_app_le l [x] (length l - n)) by lia.
  rewrite drop_drop. f_equal. lia.
Qed.

(** What [deque.append] does to the last [n] elements. *)
Lemma lastn_snoc_trim n l x :
  lastn n (l ++ [x]) =
    let l' := lastn n l ++ [x] in
    if n <? length l' then tail l' else l'.
Proof.
  simpl. rewrite length_app, length_lastn. simpl.
  destruct (Nat.ltb_spec n (n `min` length l + 1)) as [Hlt|Hge].
  - rewrite lastn_snoc_shift by lia. by destruct (lastn n l ++ [x]).
  - rewrite !lastn_ge; [done|lia|rewrite length_app; simpl; lia].
Qed.

(** What inserting a new key into a [LimitedDict] of positive capacity
    does to the last [n] elements. *)
Lemma lastn_snoc_evict n l x :
  0 < n →
  lastn n (l ++ [x]) = drop (S (length (lastn n l)) - n) (lastn n l) ++ [x].
Proof.
  intros Hn. rewrite length_lastn.
  destruct (decide (n ≤ length l)) as [Hle|Hgt].
  - rewrite lastn_snoc_shift by lia.
    replace (S (n `min` length l) - n) with 1 by lia.
    rewrite drop_app_le; [done|]. rewrite length_lastn. lia.
  - replace (S (n `min` length l) - n) with 0 by lia.
    rewrite !lastn_ge; [done|lia|rewrite length_app; simpl; lia].
Qed.
End lastn.

(** ** The buffer along a sequence of [update] calls *)

Section buffer.
Context {St : Type}.
Implicit Types (h : TemporalObject.t St) (c : call St) (calls : list (call St)).

Lemma run_snoc h calls c : run h (calls ++ [c]) = after (run h calls) c.
Proof. unfold run. by rewrite foldl_snoc. Qed.

Lemma run_app h calls calls' : run h (calls ++ calls') = run (run h calls) calls'.
Proof. unfold run. by rewrite foldl_app. Qed.

Lemma run_cons h c calls : run h (c :: calls) = run (after h c) calls.
Proof. done. Qed.

Lemma update_id h c :
  (TemporalObject.update h (object_state c) (temporal_id c) (uuid4 c)).1 = call_id c.
Proof. unfold call_id. by destruct (temporal_id c). Qed.

Lemma after_add h c : after h c = TemporalObject._add h (call_id c) (object_state c).
Proof. unfold after, call_id. by destruct (temporal_id c). Qed.

Lemma buffer_after h c :
  TemporalObject._buffer (after h c) =
    Deque.append (TemporalObject._buffer h) (object_state c).
Proof. by rewrite after_add. Qed.

Lemma id_index_after h c :
  TemporalObject._id_index (after h c) =
    LimitedDict.setitem (TemporalObject._id_index h) (call_id c) (object_state c).
Proof. by rewrite after_add. Qed.

Lemma buffer_maxlen_run h calls :
  Deque.maxlen (TemporalObject._buffer (run h calls)) =
    Deque.maxlen (TemporalObject._buffer h).
Proof.
  induction calls as [|c calls IH] using rev_ind; [done|].
  by rewrite run_snoc, buffer_after.
Qed.

Lemma setitem_maxlen (d : LimitedDict.t St) k v :
  LimitedDict.maxlen (LimitedDict.setitem d k v) = LimitedDict.maxlen d.
Proof. unfold LimitedDict.setitem. by destruct (LimitedDict.contains d k). Qed.

Lemma id_index_maxlen_run h calls :
  LimitedDict.maxlen (TemporalObject._id_index (run h calls)) =
    LimitedDict.maxlen (TemporalObject._id_index h).
Proof.
  induction calls as [|c calls IH] using rev_ind; [done|].
  by rewrite run_snoc, id_index_after, setitem_maxlen.
Qed.

(** A freshly constructed object: both containers are empty and carry the
    capacity given to the constructor. *)
Lemma init_inv depth h :
  TemporalObject.__init__ depth = Ok h →
  match depth with Some z => (0 ≤ z)%Z | None => True end ∧
  h = TemporalObject.Build (Deque.Build (Z.to_nat <$> depth) [])
        (LimitedDict.Build (Z.to_nat <$> depth) []).
Proof.
  unfold TemporalObject.__init__, Deque.new. destruct depth as [z|]; simpl.
  - destruct (_ || _); simpl; [done|].
    destruct (Z.ltb_spec z 0); simpl; [done|]. intros [= <-]. done.
  - intros [= <-]. done.
Qed.

(** The buffer of an object that started empty holds the states of the
    calls in its window, oldest first. *)
Lemma buffer_run h calls :
  Deque.items (TemporalObject._buffer h) = [] →
  TemporalObject.__iter__ (run h calls) =
    object_state <$> window (Deque.maxlen (TemporalObject._buffer h)) calls.
Proof.
  intros Hempty. unfold TemporalObject.__iter__.
  induction calls as [|c calls IH] using rev_ind.
  - simpl. rewrite Hempty. by destruct (Deque.maxlen _).
  - rewrite run_snoc, buffer_after. unfold Deque.append. simpl.
    rewrite buffer_maxlen_run, IH.
    destruct (Deque.maxlen (TemporalObject._buffer h)) as [m|]; simpl.
    + rewrite !fmap_lastn, fmap_app. simpl. by rewrite lastn_snoc_trim.
    + by rewrite fmap_app.
Qed.

Lemma len_iter h : TemporalObject.__len__ h = Z.of_nat (length (TemporalObject.__iter__ h)).
Proof. done. Qed.
End buffer.

(** C1. For a positive capacity [C] and any sequence of [update] calls, the
    length never exceeds [C]; after more than [C] updates the buffer holds
    exactly the [C] most recently added states, oldest first; and an append
    to a full buffer discards the oldest state and keeps the others. *)
Theorem C1_bounded_buffer {St : Type} (C : Z) (h0 : TemporalObject.t St)
    (calls : list (call St)) (c : call St) :
  (0 < C)%Z →
  TemporalObject.__init__ (Some C) = Ok h0 →
  let h := run h0 calls in
  (TemporalObject.__len__ h ≤ C)%Z ∧
  ((C < Z.of_nat (length calls))%Z →
     TemporalObject.__len__ h = C ∧
     TemporalObject.__iter__ h = lastn (Z.to_nat C) (object_state <$> calls)) ∧
  (TemporalObject.__len__ h = C →
     TemporalObject.__iter__ (after h c) =
       tail (TemporalObject.__iter__ h) ++ [object_state c]).
Proof.
  intros HC [_ ->]%init_inv h.
  assert (Hiter : TemporalObject.__iter__ h =
                    lastn (Z.to_nat C) (object_state <$> calls)).
  { unfold h. rewrite buffer_run by done. simpl. by rewrite fmap_lastn. }
  assert (Hlen : TemporalObject.__len__ h = (C `min` Z.of_nat (length calls))%Z).
  { rewrite len_iter, Hiter, length_lastn, length_fmap. lia. }
  split_and!.
  - lia.
  - intros Hmore. split; [lia|done].
  - intros Hfull. unfold TemporalObject.__iter__ in *.
    rewrite buffer_after. unfold Deque.append. simpl.
    unfold h at 1. rewrite buffer_maxlen_run. simpl.
    rewrite length_app. simpl.
    rewrite len_iter in Hfull. unfold TemporalObject.__iter__ in Hfull.
    destruct (Nat.ltb_spec (Z.to_nat C) (length (Deque.items (TemporalObject._buffer h)) + 1));
      [|lia].
    destruct (Deque.items (TemporalObject._buffer h)); [simpl in *; lia|done].
Qed.

(** C1 at capacity 2, after the three calls [A], [B], [C]. *)
Lemma C1_bounded_buffer_witness :
  let calls := [Call "A" None "u1"; Call "B" None "u2"; Call "C" None "u3"] in
  let h0 := TemporalObject.Build (Deque.Build (Some 2) []) (LimitedDict.Build (Some 2) []) in
  let h := run h0 calls in
  (TemporalObject.__len__ h ≤ 2)%Z ∧
  ((2 < Z.of_nat (length calls))%Z →
     TemporalObject.__len__ h = 2%Z ∧
     TemporalObject.__iter__ h = lastn (Z.to_nat 2) (object_state <$> calls)) ∧
  (TemporalObject.__len__ h = 2%Z →
     TemporalObject.__iter__ (after h (Call "D" None "u4")) =
       tail (TemporalObject.__iter__ h) ++ ["D"]).
Proof.
  apply (C1_bounded_buffer 2); [lia|reflexivity].
Defined.

(** ** The identifier index along a sequence of [update] calls *)

Section id_index.
Context {St : Type}.
Implicit Types (h : TemporalObject.t St) (c : call St) (calls : list (call St)).
Implicit Types d : LimitedDict.t St.

Lemma setitem_bound d k v :
  LimitedDict.bound (LimitedDict.setitem d k v) = LimitedDict.bound d.
Proof. unfold LimitedDict.bound. by rewrite setitem_maxlen. Qed.

Lemma id_index_bound_run h calls :
  LimitedDict.bound (TemporalObject._id_index (run h calls)) =
    LimitedDict.bound (TemporalObject._id_index h).
Proof. unfold LimitedDict.bound. by rewrite id_index_maxlen_run. Qed.

Lemma contains_true d k : LimitedDict.contains d k = true ↔ k ∈ LimitedDict.keys d.
Proof. unfold LimitedDict.contains. by rewrite bool_decide_eq_true. Qed.

Lemma contains_false d k : LimitedDict.contains d k = false ↔ k ∉ LimitedDict.keys d.
Proof. unfold LimitedDict.contains. by rewrite bool_decide_eq_false. Qed.

Lemma window_subseteq m calls : window m calls ⊆ calls.
Proof. destruct m; simpl; [apply subseteq_drop|done]. Qed.

(** With pairwise distinct identifiers, the index of an object that
    started empty holds the entries of the calls in the window of its own
    bound, oldest first. *)
Lemma id_index_run h calls :
  LimitedDict.entries (TemporalObject._id_index h) = [] →
  NoDup (call_id <$> calls) →
  LimitedDict.entries (TemporalObject._id_index (run h calls)) =
    entry <$> window (LimitedDict.bound (TemporalObject._id_index h)) calls.
Proof.
  intros Hempty.
  induction calls as [|c calls IH] using rev_ind; intros Hnd.
  - simpl. rewrite Hempty. by destruct (LimitedDict.bound _).
  - rewrite fmap_app in Hnd. apply NoDup_app in Hnd as (Hnd & Hnew & _).
    specialize (IH Hnd).
    rewrite run_snoc, id_index_after. unfold LimitedDict.setitem.
    assert (LimitedDict.contains (TemporalObject._id_index (run h calls)) (call_id c)
            = false) as ->.
    { apply contains_false. unfold LimitedDict.keys. rewrite IH.
      rewrite <- list_fmap_compose. intros Hin.
      apply list_elem_of_fmap in Hin as (c' & Hid & Hin).
      apply window_subseteq in Hin.
      apply (Hnew (call_id c)); [|simpl; left].
      apply list_elem_of_fmap. by exists c'. }
    simpl. rewrite id_index_bound_run, IH.
    destruct (LimitedDict.bound (TemporalObject._id_index h)) as [m|] eqn:Hb; simpl.
    + assert (0 < m) as Hm.
      { unfold LimitedDict.bound in Hb.
        destruct (LimitedDict.maxlen _) as [[|m']|]; simplify_eq; lia. }
      rewrite !fmap_lastn, fmap_app. simpl. by rewrite lastn_snoc_evict.
    + by rewrite fmap_app.
Qed.
End id_index.

(** C2, as amended.  When the capacity is not [0] and no identifier is used
    by two [update] calls, the buffer holds the states of the calls in its
    window and identifier lookup retrieves exactly the identifiers of those
    calls; with capacity 2 and three such calls [a], [b], [c], the
    identifier of [a] is no longer contained. *)
Theorem C2_consistency {St : Type} (depth : option Z) (h0 : TemporalObject.t St)
    (calls : list (call St)) :
  TemporalObject.__init__ depth = Ok h0 →
  depth ≠ Some 0%Z →
  NoDup (call_id <$> calls) →
  let h := run h0 calls in
  TemporalObject.__iter__ h =
    object_state <$> window (Deque.maxlen (TemporalObject._buffer h)) calls ∧
  consistent h calls ∧
  (depth = Some 2%Z → ∀ a b c, calls = [a; b; c] →
     TemporalObject.__contains__ h (call_id a) = false).
Proof.
  intros [Hpos ->]%init_inv Hdepth Hnd h.
  assert (Hcons : consistent h calls).
  { intros id. unfold TemporalObject.__contains__, buffer_ids.
    rewrite contains_true. unfold LimitedDict.keys, h.
    rewrite id_index_run, buffer_maxlen_run by done. simpl.
    rewrite <- list_fmap_compose.
    assert (LimitedDict.bound (V:=St) (LimitedDict.Build (Z.to_nat <$> depth) []) =
              Z.to_nat <$> depth) as ->; [|done].
    unfold LimitedDict.bound. simpl. destruct depth as [z|]; simpl; [|done].
    destruct (Z.to_nat z) eqn:Hz; [|done].
    destruct Hdepth. f_equal. lia. }
  split_and!.
  - unfold h. rewrite buffer_run, buffer_maxlen_run by done. done.
  - done.
  - intros -> a b c ->. apply not_true_is_false. rewrite (Hcons (call_id a)).
    unfold buffer_ids, h. rewrite buffer_maxlen_run. simpl.
    apply NoDup_cons in Hnd as [Ha _]. exact Ha.
Qed.

(** C2 at capacity 2, after three calls with the identifiers [a], [b], [c]. *)
Lemma C2_consistency_witness :
  let calls := [Call "A" (Some "a") "u1"; Call "B" (Some "b") "u2"; Call "C" (Some "c") "u3"] in
  let h0 := TemporalObject.Build (Deque.Build (Some 2) []) (LimitedDict.Build (Some 2) []) in
  let h := run h0 calls in
  TemporalObject.__iter__ h =
    object_state <$> window (Deque.maxlen (TemporalObject._buffer h)) calls ∧
  consistent h calls ∧
  (Some 2%Z = Some 2%Z → ∀ a b c, calls = [a; b; c] →
     TemporalObject.__contains__ h (call_id a) = false).
Proof.
  apply (C2_consistency (Some 2%Z)); [reflexivity|discriminate|].
  apply (bool_decide_unpack _). vm_compute. exact I.
Defined.

(** C2 as stated fails.  With capacity 3 and the identifiers [x], [y], [x],
    [z], [w], the buffer ends with the states registered as [x], [z], [w]
    while lookup retrieves [y], [z], [w].  With capacity 0 the buffer stays
    empty while lookup retrieves every identifier. *)
Lemma C2_counterexample :
  (let calls := [Call "A" (Some "x") "u1"; Call "B" (Some "y") "u2";
                 Call "C" (Some "x") "u3"; Call "D" (Some "z") "u4";
                 Call "E" (Some "w") "u5"] in
   ∃ h0, TemporalObject.__init__ (Some 3%Z) = Ok h0 ∧
     TemporalObject.__iter__ (run h0 calls) = ["C"; "D"; "E"] ∧
     buffer_ids (run h0 calls) calls = ["x"; "z"; "w"] ∧
     TemporalObject.__contains__ (run h0 calls) "x" = false ∧
     TemporalObject.__contains__ (run h0 calls) "y" = true ∧
     ¬ consistent (run h0 calls) calls) ∧
  (let calls := [Call "A" (Some "x") "u1"] in
   ∃ h0, TemporalObject.__init__ (Some 0%Z) = Ok h0 ∧
     TemporalObject.__iter__ (run h0 calls) = [] ∧
     buffer_ids (run h0 calls) calls = [] ∧
     TemporalObject.__contains__ (run h0 calls) "x" = true ∧
     ¬ consistent (run h0 calls) calls).
Proof.
  split; simpl.
  - eexists. split; [reflexivity|]. split_and!; try reflexivity.
    intros Hcons. specialize (Hcons "x"). destruct Hcons as [_ Hcons].
    assert (Hin : "x" ∈ ["x"; "z"; "w"]) by (apply list_elem_of_here).
    specialize (Hcons Hin). vm_compute in Hcons. discriminate.
  - eexists. split; [reflexivity|]. split_and!; try reflexivity.
    intros Hcons. specialize (Hcons "x"). destruct Hcons as [Hcons _].
    specialize (Hcons eq_refl). vm_compute in Hcons. by apply elem_of_nil in Hcons.
Qed.

(** ** Positional access *)

Section positional.
Context {St : Type}.
Implicit Types (h : TemporalObject.t St) (d : Deque.deque St).

Lemma deque_getitem_lookup d (i : nat) x :
  Deque.items d !! i = Some x → Deque.getitem d (Z.of_nat i) = Ok x.
Proof.
  intros Hi. pose proof (lookup_lt_Some _ _ _ Hi) as Hlt.
  unfold Deque.getitem, Deque.len.
  destruct (Z.ltb_spec (Z.of_nat i) 0); [lia|].
  destruct (Z.ltb_spec (Z.of_nat i) 0); [lia|].
  destruct (Z.leb_spec (Z.of_nat (length (Deque.items d))) (Z.of_nat i)); [lia|].
  simpl. by rewrite Nat2Z.id, Hi.
Qed.

(** [d[-1]] is the right-most item. *)
Lemma deque_getitem_last d :
  Deque.getitem d (-1) =
    match last (Deque.items d) with
    | Some x => Ok x
    | None => Raise IndexError
    end.
Proof.
  unfold Deque.getitem, Deque.len. rewrite last_lookup. simpl.
  destruct (Deque.items d) as [|y l]; [done|].
  set (n := length (y :: l)). assert (0 < n) by (unfold n; simpl; lia).
  destruct (Z.ltb_spec (-1 + Z.of_nat n) 0); [lia|].
  destruct (Z.leb_spec (Z.of_nat n) (-1 + Z.of_nat n)); [lia|]. simpl.
  replace (Z.to_nat (-1 + Z.of_nat n)) with (pred n) by lia.
  destruct (_ !! _) eqn:Hl; [done|].
  apply lookup_ge_None in Hl. fold n in Hl. lia.
Qed.

(** [self[i]] is the state at position [|i|] counted back from the most
    recent one. *)
Lemma getitem_int_reverse h i :
  TemporalObject.getitem_int h i =
    match reverse (TemporalObject.__iter__ h) !! Z.to_nat (Z.abs i) with
    | Some x => Ok x
    | None => Raise IndexError
    end.
Proof.
  unfold TemporalObject.getitem_int, TemporalObject.__iter__, Deque.getitem, Deque.len.
  set (l := Deque.items (TemporalObject._buffer h)).
  set (k := if (i <? 0)%Z then Z.abs i else i).
  assert (k = Z.abs i) as -> by (unfold k; destruct (Z.ltb_spec i 0); lia).
  destruct (Z.ltb_spec (Z.abs i) 0); [lia|]. simpl.
  destruct (Z.leb_spec (Z.of_nat (length l)) (Z.abs i)).
  - rewrite lookup_ge_None_2; [done|]. rewrite length_reverse. lia.
  - destruct (Z.ltb_spec (-1 - Z.abs i) 0); [|lia].
    destruct (Z.ltb_spec (-1 - Z.abs i + Z.of_nat (length l)) 0); [lia|].
    destruct (Z.leb_spec (Z.of_nat (length l)) (-1 - Z.abs i + Z.of_nat (length l)));
      [lia|]. simpl.
    rewrite reverse_lookup by lia.
    replace (Z.to_nat (-1 - Z.abs i + Z.of_nat (length l)))
      with (length l - S (Z.to_nat (Z.abs i))) by lia.
    destruct (l !! _) eqn:Hl; [done|].
    apply lookup_ge_None in Hl. lia.
Qed.

Lemma getitem_int_out_of_range h i :
  (TemporalObject.__len__ h ≤ Z.abs i)%Z →
  TemporalObject.getitem_int h i = Raise IndexError.
Proof.
  intros Hi. rewrite getitem_int_reverse, lookup_ge_None_2; [done|].
  rewrite length_reverse. rewrite len_iter in Hi. lia.
Qed.
End positional.

(** ** Identifier lookup *)

Section lookup.
Context {St : Type}.
Implicit Types (h : TemporalObject.t St) (c : call St) (calls : list (call St)).
Implicit Types d : LimitedDict.t St.

Lemma get_absent d k default :
  LimitedDict.contains d k = false → LimitedDict.get d k default = default.
Proof.
  rewrite contains_false. intros Hk. unfold LimitedDict.get.
  destruct (list_find _ _) as [[i e]|] eqn:Hfind; [|done].
  apply list_find_Some in Hfind as (Hi & He & _). destruct Hk.
  unfold LimitedDict.keys. apply list_elem_of_fmap. exists e.
  split; [done|]. by eapply list_elem_of_lookup_2.
Qed.

Lemma holds_get d id s j :
  holds d id s j →
  LimitedDict.contains d id = true ∧ LimitedDict.get d id None = Some s.
Proof.
  intros (older & younger & Hd & Hold & _). split.
  - apply contains_true. unfold LimitedDict.keys. rewrite Hd, fmap_app.
    apply elem_of_app. right. simpl. left.
  - unfold LimitedDict.get. rewrite Hd.
    rewrite list_find_app_r.
    + simpl. by rewrite decide_True.
    + apply list_find_None, Forall_forall. intros e He <-.
      apply Hold, list_elem_of_fmap. by exists e.
Qed.

Lemma keys_setitem d k v :
  LimitedDict.keys (LimitedDict.setitem d k v) ⊆ k :: LimitedDict.keys d.
Proof.
  unfold LimitedDict.setitem, LimitedDict.keys.
  destruct (LimitedDict.contains d k); simpl.
  - intros k' (e' & -> & (e & -> & He)%list_elem_of_fmap)%list_elem_of_fmap.
    case_decide; simpl; [left|]. right. apply list_elem_of_fmap. by exists e.
  - rewrite fmap_app. simpl. intros k' [Hk'| ->%list_elem_of_singleton]%elem_of_app;
      [right|left].
    revert Hk'. apply fmap_subseteq.
    destruct (LimitedDict.bound d); [apply subseteq_drop|done].
Qed.

Lemma keys_run h calls :
  LimitedDict.entries (TemporalObject._id_index h) = [] →
  LimitedDict.keys (TemporalObject._id_index (run h calls)) ⊆ call_id <$> calls.
Proof.
  intros Hempty. induction calls as [|c calls IH] using rev_ind.
  - unfold LimitedDict.keys. simpl. by rewrite Hempty.
  - rewrite run_snoc, id_index_after, fmap_app. simpl.
    intros k [->|Hk]%keys_setitem%elem_of_cons; apply elem_of_app.
    + right. left.
    + left. by apply IH.
Qed.

(** A new key becomes the youngest entry. *)
Lemma holds_setitem_new d id s :
  id ∉ LimitedDict.keys d → holds (LimitedDict.setitem d id s) id s 0.
Proof.
  intros Hnew. unfold LimitedDict.setitem.
  rewrite (proj2 (contains_false d id)) by done. simpl.
  eexists _, []. split; [done|]. split; [|done].
  intros Hin. apply Hnew. revert Hin. apply fmap_subseteq.
  destruct (LimitedDict.bound d); [apply subseteq_drop|done].
Qed.

(** Setting another key keeps the entry, as long as the bound leaves room
    for one more younger entry. *)
Lemma holds_setitem d id s j k v :
  holds d id s j →
  k ≠ id →
  match LimitedDict.bound d with Some c => j + 2 ≤ c | None => True end →
  holds (LimitedDict.setitem d k v) id s (S j).
Proof.
  intros (older & younger & Hd & Hold & Hj) Hk Hroom.
  unfold LimitedDict.setitem. destruct (LimitedDict.contains d k); simpl.
  - rewrite Hd, fmap_app. simpl. rewrite decide_False by done.
    eexists _, _. split; [done|]. split.
    + intros (e' & -> & (e & -> & He)%list_elem_of_fmap)%list_elem_of_fmap.
      case_decide; simpl in *; [done|].
      apply Hold, list_elem_of_fmap. by exists e.
    + rewrite length_fmap. lia.
  - destruct (LimitedDict.bound d) as [c|].
    + rewrite Hd, length_app. simpl.
      rewrite drop_app_le by lia.
      rewrite <- app_assoc. simpl.
      eexists _, _. split; [done|]. split.
      * intros Hin. apply Hold. revert Hin. apply fmap_subseteq, subseteq_drop.
      * rewrite length_app. simpl. lia.
    + rewrite Hd, <- app_assoc. simpl.
      eexists _, _. split; [done|]. split; [done|].
      rewrite length_app. simpl. lia.
Qed.

Lemma holds_run h id s j calls :
  holds (TemporalObject._id_index h) id s j →
  id ∉ call_id <$> calls →
  match LimitedDict.bound (TemporalObject._id_index h) with
  | Some c => j + length calls + 1 ≤ c
  | None => True
  end →
  holds (TemporalObject._id_index (run h calls)) id s (j + length calls).
Proof.
  revert h j. induction calls as [|c calls IH]; intros h j Hh Hid Hroom.
  - simpl. by rewrite Nat.add_0_r.
  - simpl in *. apply not_elem_of_cons in Hid as [Hc Hid].
    replace (j + S (length calls)) with (S j + length calls) by lia.
    apply IH; [|done|].
    + rewrite id_index_after. apply holds_setitem; [done|done|].
      destruct (LimitedDict.bound _); [lia|done].
    + rewrite id_index_after, setitem_bound.
      destruct (LimitedDict.bound _); [lia|done].
Qed.
End lookup.

(** ** Identifier round trip *)

Section round_trip.
Context {St : Type}.
Implicit Types (h : TemporalObject.t St) (c : call St) (pre post : list (call St)).

(** A call followed by fewer calls than the capacity is still in the
    window, at the recency position given by the number of later calls. *)
Lemma window_reverse_lookup m pre c post :
  match m with Some C => length post < C | None => True end →
  reverse (window m (pre ++ c :: post)) !! length post = Some c.
Proof.
  intros Hm.
  assert (∀ k, k ≤ length pre →
            reverse (drop k (pre ++ c :: post)) !! length post = Some c) as Hdrop.
  { intros k Hk. rewrite reverse_lookup; rewrite length_drop, length_app; simpl; [|lia].
    rewrite lookup_drop.
    replace (k + (length pre + S (length post) - k - S (length post)))
      with (length pre) by lia.
    by rewrite list_lookup_middle. }
  destruct m as [C|]; simpl.
  - apply Hdrop. rewrite length_app. simpl. lia.
  - apply (Hdrop 0). lia.
Qed.
End round_trip.

(** C3, as amended.  [update] returns the identifier it registered.  When
    no other [update] call uses that identifier, then for as long as the
    state is within the retained window (it can still be read at its recency
    position) the identifier is contained and indexing by it returns the
    state that was passed to [update]. *)
Theorem C3_round_trip {St : Type} (depth : option Z) (h0 : TemporalObject.t St)
    (pre : list (call St)) (c : call St) (post : list (call St)) :
  TemporalObject.__init__ depth = Ok h0 →
  call_id c ∉ call_id <$> pre →
  call_id c ∉ call_id <$> post →
  match depth with
  | Some C => (Z.of_nat (length post) < C)%Z
  | None => True
  end →
  let h := run h0 (pre ++ c :: post) in
  (TemporalObject.update (run h0 pre) (object_state c) (temporal_id c) (uuid4 c)).1
    = call_id c ∧
  TemporalObject.__getitem__ h (TemporalObject.Int (Z.of_nat (length post)))
    = Ok (TemporalObject.State (object_state c)) ∧
  TemporalObject.__contains__ h (call_id c) = true ∧
  TemporalObject.__getitem__ h (TemporalObject.Str (call_id c))
    = Ok (TemporalObject.State (object_state c)).
Proof.
  intros [Hpos ->]%init_inv Hpre Hpost Hwin h.
  set (h0 := TemporalObject.Build _ _) in *.
  split; [apply update_id|]. split.
  - simpl. rewrite getitem_int_reverse. unfold h.
    rewrite buffer_run by done. rewrite <- fmap_reverse, list_lookup_fmap.
    replace (Z.to_nat (Z.abs (Z.of_nat (length post)))) with (length post) by lia.
    rewrite window_reverse_lookup; [done|].
    simpl. destruct depth; simpl; [lia|done].
  - assert (holds (TemporalObject._id_index h) (call_id c) (object_state c)
              (0 + length post)) as Hh.
    { unfold h. rewrite run_app, run_cons. apply holds_run; [|done|].
      - rewrite id_index_after. apply holds_setitem_new.
        intros Hin. by apply keys_run in Hin.
      - rewrite id_index_after, setitem_bound, id_index_bound_run.
        unfold LimitedDict.bound. simpl.
        destruct depth as [z|]; simpl; [|done].
        destruct (Z.to_nat z) eqn:Hz; [done|]. lia. }
    apply holds_get in Hh as [Hc Hg]. split; [done|].
    simpl. unfold TemporalObject._get_by_temporal_id. by rewrite Hg.
Qed.

(** C3 at capacity 2: the state registered as [b] after one later call. *)
Lemma C3_round_trip_witness :
  let h0 := TemporalObject.Build (Deque.Build (Some 2) []) (LimitedDict.Build (Some 2) []) in
  let pre := [Call "A" (Some "a") "u1"] in
  let c := Call "B" None "b" in
  let post := [Call "C" (Some "c") "u3"] in
  let h := run h0 (pre ++ c :: post) in
  (TemporalObject.update (run h0 pre) (object_state c) (temporal_id c) (uuid4 c)).1
    = call_id c ∧
  TemporalObject.__getitem__ h (TemporalObject.Int (Z.of_nat (length post)))
    = Ok (TemporalObject.State "B") ∧
  TemporalObject.__contains__ h "b" = true ∧
  TemporalObject.__getitem__ h (TemporalObject.Str "b") = Ok (TemporalObject.State "B").
Proof.
  apply (C3_round_trip (Some 2%Z)); simpl.
  - reflexivity.
  - apply (bool_decide_unpack _). vm_compute. exact I.
  - apply (bool_decide_unpack _). vm_compute. exact I.
  - lia.
Defined.

(** C3 as stated fails when an identifier is reused.  With capacity 2,
    after [update("A", "x")] and [update("B", "x")] the state ["A"] is still
    retained, at recency position 1, and ["x"] is contained, but indexing by
    ["x"] returns ["B"]. *)
Lemma C3_counterexample :
  ∃ h0 : TemporalObject.t string,
    TemporalObject.__init__ (Some 2%Z) = Ok h0 ∧
    let (id, h1) := TemporalObject.update h0 "A" (Some "x") "u1" in
    let (_, h) := TemporalObject.update h1 "B" (Some "x") "u2" in
    id = "x" ∧
    TemporalObject.__getitem__ h (TemporalObject.Int 1) = Ok (TemporalObject.State "A") ∧
    TemporalObject.__contains__ h id = true ∧
    TemporalObject.__getitem__ h (TemporalObject.Str id) = Ok (TemporalObject.State "B") ∧
    TemporalObject.__getitem__ h (TemporalObject.Str id) ≠ Ok (TemporalObject.State "A").
Proof.
  eexists. split; [reflexivity|]. simpl. split_and!; try reflexivity.
  vm_compute. discriminate.
Qed.

(** ** Slices *)

Section slices.
Context {St : Type}.
Implicit Types (h : TemporalObject.t St) (d : Deque.deque St).

Lemma range_step1 (a b : nat) :
  a ≤ b → range (Z.of_nat a) (Z.of_nat b) 1 = Z.of_nat <$> seq a (b - a).
Proof.
  intros Hab. unfold range, range_len. simpl.
  rewrite Z.div_1_r.
  assert ((if (Z.of_nat a <? Z.of_nat b)%Z
           then Z.to_nat (Z.of_nat b - Z.of_nat a - 1 + 1) else 0) = b - a) as ->.
  { destruct (Z.ltb_spec (Z.of_nat a) (Z.of_nat b)); lia. }
  replace (seq a (b - a)) with (Nat.add a <$> seq 0 (b - a))
    by (rewrite fmap_add_seq; f_equal; lia).
  rewrite <- list_fmap_compose.
  apply list_fmap_ext. intros _ k _. simpl. lia.
Qed.

Lemma mapM_getitem_seq d (a m : nat) :
  a + m ≤ length (Deque.items d) →
  mapM (Deque.getitem d) (Z.of_nat <$> seq a m) = Ok (take m (drop a (Deque.items d))).
Proof.
  revert a. induction m as [|m IH]; intros a Ham; simpl.
  - by rewrite take_0.
  - destruct (lookup_lt_is_Some_2 (Deque.items d) a) as [x Hx]; [lia|].
    rewrite (deque_getitem_lookup _ _ _ Hx). simpl.
    rewrite IH by lia. simpl.
    by rewrite (drop_S _ _ _ Hx).
Qed.

(** [self[v:]]: the states from the clamped start to the newest. *)
Lemma getitem_slice_from h (v : Z) :
  TemporalObject.getitem_slice h (Slice (Some v) None None) =
    Ok (drop
          (Z.to_nat (if (v <? 0)%Z then v + TemporalObject.__len__ h else v))
          (TemporalObject.__iter__ h)).
Proof.
  unfold TemporalObject.getitem_slice, TemporalObject.__len__, TemporalObject.__iter__,
    slice_indices, Deque.len.
  set (l := Deque.items (TemporalObject._buffer h)). simpl.
  set (a := if (v <? 0)%Z then _ else _).
  set (k := Z.to_nat (if (v <? 0)%Z then _ else _)).
  assert (a = Z.of_nat (k `min` length l)) as ->.
  { unfold a, k. destruct (Z.ltb_spec v 0).
    - destruct (Z.ltb_spec (v + Z.of_nat (length l)) 0); lia.
    - destruct (Z.ltb_spec (Z.of_nat (length l)) v); lia. }
  rewrite range_step1 by lia.
  rewrite mapM_getitem_seq by (fold l; lia). fold l. f_equal.
  rewrite take_ge by (rewrite length_drop; lia).
  destruct (decide (k ≤ length l)) as [Hk|Hk].
  - f_equal. lia.
  - rewrite !drop_ge; [done|lia|lia].
Qed.

Lemma slice_indices_bounds (s : slice) (n : Z) :
  (0 ≤ n)%Z →
  match slice_indices s n with
  | Ok (a, b, st) =>
      step s ≠ Some 0%Z ∧
      ((0 < st)%Z ∧ (0 ≤ a ≤ n)%Z ∧ (0 ≤ b ≤ n)%Z ∨
       (st < 0)%Z ∧ (-1 ≤ a ≤ n - 1)%Z ∧ (-1 ≤ b ≤ n - 1)%Z)
  | Raise e => e = ValueError ∧ step s = Some 0%Z
  end.
Proof.
  intros Hn. unfold slice_indices.
  destruct s as [sta sto [st|]]; simpl.
  - destruct (Z.eqb_spec st 0) as [->|Hst]; [done|].
    split; [congruence|].
    destruct (Z.ltb_spec st 0); [right|left]; (split; [lia|]);
      destruct sta as [a|], sto as [b|];
      repeat match goal with
             | |- context [(?x <? ?y)%Z] => destruct (Z.ltb_spec x y)
             end; lia.
  - split; [done|]. left. split; [lia|].
    destruct sta as [a|], sto as [b|];
      repeat match goal with
             | |- context [(?x <? ?y)%Z] => destruct (Z.ltb_spec x y)
             end; lia.
Qed.

Lemma range_in_bounds (a b st n : Z) :
  (0 < st)%Z ∧ (0 ≤ a ≤ n)%Z ∧ (0 ≤ b ≤ n)%Z ∨
  (st < 0)%Z ∧ (-1 ≤ a ≤ n - 1)%Z ∧ (-1 ≤ b ≤ n - 1)%Z →
  Forall (λ i, (0 ≤ i < n)%Z) (range a b st).
Proof.
  intros Hb. apply Forall_forall. intros i.
  unfold range. intros (k & -> & Hk%elem_of_seq)%list_elem_of_fmap.
  unfold range_len in Hk. simpl in Hk.
  destruct Hb as [(Hst & Ha & Hb)|(Hst & Ha & Hb)].
  - destruct (Z.ltb_spec 0 st); [|lia].
    destruct (Z.ltb_spec a b); [|lia].
    pose proof (Z.mul_div_le (b - a - 1) st Hst).
    assert (0 ≤ (b - a - 1) / st)%Z by (apply Z.div_pos; lia).
    nia.
  - destruct (Z.ltb_spec 0 st); [lia|].
    destruct (Z.ltb_spec b a); [|lia].
    pose proof (Z.mul_div_le (a - b - 1) (- st) ltac:(lia)).
    assert (0 ≤ (a - b - 1) / - st)%Z by (apply Z.div_pos; lia).
    nia.
Qed.

Lemma mapM_getitem_in_bounds d (l : list Z) :
  Forall (λ i, (0 ≤ i < Deque.len d)%Z) l →
  ∃ r, mapM (Deque.getitem d) l = Ok r.
Proof.
  induction 1 as [|i l Hi _ [r IH]]; simpl; [by eexists|].
  unfold Deque.len in Hi.
  destruct (lookup_lt_is_Some_2 (Deque.items d) (Z.to_nat i)) as [x Hx]; [lia|].
  apply deque_getitem_lookup in Hx. rewrite Z2Nat.id in Hx by lia.
  rewrite Hx, IH. simpl. by eexists.
Qed.

(** A slice yields a list, except that a zero step is refused with
    [ValueError]; it never fails with [IndexError]. *)
Lemma getitem_slice_total h (s : slice) :
  match TemporalObject.getitem_slice h s with
  | Ok _ => step s ≠ Some 0%Z
  | Raise e => e = ValueError ∧ step s = Some 0%Z
  end.
Proof.
  unfold TemporalObject.getitem_slice.
  pose proof (slice_indices_bounds s (Deque.len (TemporalObject._buffer h))
                ltac:(unfold Deque.len; lia)) as Hs.
  destruct (slice_indices _ _) as [[[a b] st]|e]; simpl; [|done].
  destruct Hs as [Hstep Hb].
  apply range_in_bounds, mapM_getitem_in_bounds in Hb as [r ->]. done.
Qed.
(** Reading the positions [l] one by one yields [r] when every position
    holds the matching item. *)
Lemma mapM_getitem_lookup d (l : list Z) (r : list St) :
  length l = length r →
  (∀ j i x, l !! j = Some i → r !! j = Some x →
     (0 ≤ i)%Z ∧ Deque.items d !! Z.to_nat i = Some x) →
  mapM (Deque.getitem d) l = Ok r.
Proof.
  revert r. induction l as [|i l IH]; intros [|x r] Hlen Hat; simpl in *; try done.
  destruct (Hat 0 i x) as [Hi Hx]; [done..|].
  apply deque_getitem_lookup in Hx. rewrite Z2Nat.id in Hx by done.
  rewrite Hx. simpl. rewrite (IH r); [done|lia|].
  intros j i' x' Hl Hr. by apply (Hat (S j)).
Qed.

(** [stride_from] by positions. *)
Lemma stride_from_lookup {A : Type} (k skip : nat) (l : list A) (m : nat) :
  0 < k → stride_from k skip l !! m = l !! (skip + m * k).
Proof.
  intros Hk. revert skip m. induction l as [|x l IH]; intros skip m; simpl; [done|].
  destruct skip as [|skip]; simpl.
  - destruct m as [|m]; simpl; [done|]. rewrite IH.
    destruct k as [|k]; [lia|]. simpl. f_equal. lia.
  - apply IH.
Qed.

Lemma length_lookup_iff {A : Type} (r : list A) (N : nat) :
  (∀ m, m < N ↔ is_Some (r !! m)) → length r = N.
Proof.
  intros Hr.
  assert (∀ m, m < N ↔ m < length r) as Hlt.
  { intros m. rewrite Hr. apply lookup_lt_is_Some. }
  pose proof (Hlt N). pose proof (Hlt (length r)). lia.
Qed.

(** [range] counts the steps that stay before [stop]. *)
Lemma range_len_lt (a b k : Z) (m : nat) :
  (k ≠ 0)%Z →
  m < range_len a b k ↔
    if (0 <? k)%Z then (Z.of_nat m * k < b - a)%Z else (Z.of_nat m * - k < a - b)%Z.
Proof.
  intros Hk. unfold range_len.
  assert (Hdiv : ∀ d c : Z, (0 < c)%Z → (0 < d)%Z →
            (Z.of_nat m * c < d)%Z ↔ m < Z.to_nat ((d - 1) / c + 1)).
  { intros d c Hc Hd.
    pose proof (Z.div_mod (d - 1) c ltac:(lia)) as Hdm.
    pose proof (Z.mod_pos_bound (d - 1) c Hc) as Hmod.
    assert (0 ≤ (d - 1) / c)%Z by (apply Z.div_pos; lia).
    split; intros Hm; nia. }
  destruct (Z.ltb_spec 0 k).
  - destruct (Z.ltb_spec a b); [rewrite (Hdiv (b - a)%Z k) by lia|]; [|nia].
    by replace (b - a - 1)%Z with (b - a - 1)%Z by lia.
  - destruct (Z.ltb_spec b a); [rewrite (Hdiv (a - b)%Z (- k)%Z) by lia|]; [|nia].
    done.
Qed.

Lemma range_lookup (a b k : Z) (j : nat) (i : Z) :
  range a b k !! j = Some i → j < range_len a b k ∧ i = (a + Z.of_nat j * k)%Z.
Proof.
  unfold range. rewrite list_lookup_fmap.
  destruct (seq _ _ !! j) as [j'|] eqn:Hj; [|done].
  apply lookup_seq in Hj as [-> Hj]. simpl. intros [= <-]. done.
Qed.

Lemma clamp_bounds (lower upper n v : Z) :
  (lower ≤ upper)%Z → (lower ≤ clamp lower upper n v ≤ upper)%Z.
Proof. unfold clamp. lia. Qed.

(** [slice.indices] clamps the bounds. *)
Lemma slice_indices_clamp (s : slice) (n : Z) :
  (0 ≤ n)%Z →
  slice_indices s n =
    let k := default 1%Z (step s) in
    if (k =? 0)%Z then Raise ValueError
    else if (0 <? k)%Z then
      Ok (from_option (clamp 0 n n) 0%Z (start s),
          from_option (clamp 0 n n) n (stop s), k)
    else
      Ok (from_option (clamp (-1) (n - 1) n) (n - 1)%Z (start s),
          from_option (clamp (-1) (n - 1) n) (-1)%Z (stop s), k).
Proof.
  intros Hn. unfold slice_indices. simpl.
  destruct (Z.eqb_spec (default 1%Z (step s)) 0) as [|Hk]; [done|].
  destruct (Z.ltb_spec (default 1%Z (step s)) 0), (Z.ltb_spec 0 (default 1%Z (step s)));
    try lia;
    destruct (start s) as [a|], (stop s) as [b|]; simpl; unfold clamp;
    repeat match goal with
           | |- context [(?x <? ?y)%Z] => destruct (Z.ltb_spec x y)
           end;
    do 3 f_equal; lia.
Qed.

(** Reading the positions of an ascending [range] is slicing by [drop],
    [take] and [stride]. *)
Lemma mapM_range_ascending d (a b k : Z) :
  (0 < k)%Z →
  (0 ≤ a ≤ Deque.len d)%Z →
  (0 ≤ b ≤ Deque.len d)%Z →
  mapM (Deque.getitem d) (range a b k) =
    Ok (stride (Z.to_nat k) (drop (Z.to_nat a) (take (Z.to_nat b) (Deque.items d)))).
Proof.
  unfold Deque.len. set (l := Deque.items d). intros Hk Ha Hb.
  assert (Hat : ∀ m : nat,
            stride (Z.to_nat k) (drop (Z.to_nat a) (take (Z.to_nat b) l)) !! m =
              take (Z.to_nat b) l !! Z.to_nat (a + Z.of_nat m * k)).
  { intros m. unfold stride. rewrite stride_from_lookup, lookup_drop by lia.
    f_equal. nia. }
  apply mapM_getitem_lookup.
  - unfold range. rewrite length_fmap, length_seq. symmetry.
    apply length_lookup_iff. intros m.
    rewrite range_len_lt by lia. destruct (Z.ltb_spec 0 k); [|lia].
    rewrite Hat, lookup_take_is_Some, lookup_lt_is_Some. nia.
  - intros j i x [_ ->]%range_lookup Hx. rewrite Hat in Hx.
    apply lookup_take_Some in Hx as [Hx _]. split; [nia|done].
Qed.

(** Reading the positions of a descending [range] is slicing by [drop],
    [take], [reverse] and [stride]. *)
Lemma mapM_range_descending d (a b k : Z) :
  (k < 0)%Z →
  (-1 ≤ a ≤ Deque.len d - 1)%Z →
  (-1 ≤ b ≤ Deque.len d - 1)%Z →
  mapM (Deque.getitem d) (range a b k) =
    Ok (stride (Z.to_nat (- k))
          (reverse (drop (Z.to_nat (b + 1)) (take (Z.to_nat (a + 1)) (Deque.items d))))).
Proof.
  unfold Deque.len. set (l := Deque.items d). intros Hk Ha Hb.
  set (w := drop (Z.to_nat (b + 1)) (take (Z.to_nat (a + 1)) l)).
  assert (Hw : Z.of_nat (length w) = Z.max 0 (a - b)).
  { unfold w. rewrite length_drop, length_take. lia. }
  assert (Hwl : ∀ (t : nat) y,
            w !! t = Some y ↔
              l !! (Z.to_nat (b + 1) + t) = Some y ∧
              Z.to_nat (b + 1) + t < Z.to_nat (a + 1)).
  { intros t y. unfold w. by rewrite lookup_drop, lookup_take_Some. }
  assert (Hat : ∀ (m : nat) x,
            stride (Z.to_nat (- k)) (reverse w) !! m = Some x ↔
              (Z.of_nat m * - k < a - b)%Z ∧
              l !! Z.to_nat (a + Z.of_nat m * k) = Some x).
  { intros m x. unfold stride. rewrite stride_from_lookup by lia. simpl.
    rewrite reverse_lookup_Some, Hwl.
    assert (Z.of_nat (m * Z.to_nat (- k)) = (Z.of_nat m * - k)%Z) as Hmk by nia.
    split.
    - intros [[Hx _] Hlt]. split; [lia|].
      by replace (Z.to_nat (a + Z.of_nat m * k))
        with (Z.to_nat (b + 1) + (length w - S (m * Z.to_nat (- k)))) by lia.
    - intros [Hlt Hx]. split; [|lia]. split; [|lia].
      by replace (Z.to_nat (b + 1) + (length w - S (m * Z.to_nat (- k))))
        with (Z.to_nat (a + Z.of_nat m * k)) by lia. }
  apply mapM_getitem_lookup.
  - unfold range. rewrite length_fmap, length_seq. symmetry.
    apply length_lookup_iff. intros m.
    rewrite range_len_lt by lia. destruct (Z.ltb_spec 0 k); [lia|].
    split.
    + intros Hm.
      destruct (lookup_lt_is_Some_2 l (Z.to_nat (a + Z.of_nat m * k))) as [x Hx]; [nia|].
      exists x. by apply Hat.
    + intros [x Hx]. by apply Hat in Hx as [? _].
  - intros j i x [_ ->]%range_lookup Hx. apply Hat in Hx as [Hlt Hx].
    split; [nia|done].
Qed.

(** The [slice] branch of [__getitem__] is the standard slice of the
    states in iteration order. *)
Lemma getitem_slice_list_slice h (s : slice) :
  TemporalObject.getitem_slice h s = list_slice (TemporalObject.__iter__ h) s.
Proof.
  unfold TemporalObject.getitem_slice, list_slice, TemporalObject.__iter__.
  rewrite slice_indices_clamp by (unfold Deque.len; lia). simpl.
  fold (Deque.len (TemporalObject._buffer h)).
  set (n := Deque.len (TemporalObject._buffer h)).
  assert (0 ≤ n)%Z by (unfold n, Deque.len; lia).
  destruct (Z.eqb_spec (default 1%Z (step s)) 0); [done|].
  destruct (Z.ltb_spec 0 (default 1%Z (step s))); simpl.
  - apply mapM_range_ascending; [done|..]; fold n;
      [destruct (start s)|destruct (stop s)]; simpl;
      try apply clamp_bounds; lia.
  - apply mapM_range_descending; [lia|..]; fold n;
      [destruct (start s)|destruct (stop s)]; simpl;
      try apply clamp_bounds; lia.
Qed.
End slices.

(** ** Reading the history *)

(** C4. For a negative integer [i], indexing by [i] behaves as indexing by
    [|i|]: both give the state at recency position [|i|], counted back from
    the most recent, or fail alike.  On the buffer [[a; b; c]], with [c] the
    most recent, indexing by [1] and by [-1] both return [b]. *)
Theorem C4_negative_index {St : Type} (h : TemporalObject.t St) (i : Z) :
  (i < 0)%Z →
  TemporalObject.__getitem__ h (TemporalObject.Int i) =
    TemporalObject.__getitem__ h (TemporalObject.Int (Z.abs i)) ∧
  TemporalObject.__getitem__ h (TemporalObject.Int i) =
    match reverse (TemporalObject.__iter__ h) !! Z.to_nat (Z.abs i) with
    | Some x => Ok (TemporalObject.State x)
    | None => Raise IndexError
    end ∧
  (∀ a b c, TemporalObject.__iter__ h = [a; b; c] →
     TemporalObject.__getitem__ h (TemporalObject.Int 1) = Ok (TemporalObject.State b) ∧
     TemporalObject.__getitem__ h (TemporalObject.Int (-1)) = Ok (TemporalObject.State b)).
Proof.
  intros Hi. split_and!.
  - simpl. by rewrite !getitem_int_reverse, Z.abs_idemp.
  - simpl. rewrite getitem_int_reverse. by destruct (_ !! _).
  - intros a b c Hh. simpl. rewrite !getitem_int_reverse, Hh. done.
Qed.

(** C4 on the buffer [["A"; "B"; "C"]] at index [-1]. *)
Lemma C4_negative_index_witness :
  let h := TemporalObject.Build (Deque.Build None ["A"; "B"; "C"])
             (LimitedDict.Build None [("a", "A"); ("b", "B"); ("c", "C")]) in
  TemporalObject.__getitem__ h (TemporalObject.Int (-1)) =
    TemporalObject.__getitem__ h (TemporalObject.Int (Z.abs (-1))) ∧
  TemporalObject.__getitem__ h (TemporalObject.Int (-1)) =
    match reverse (TemporalObject.__iter__ h) !! Z.to_nat (Z.abs (-1)) with
    | Some x => Ok (TemporalObject.State x)
    | None => Raise IndexError
    end ∧
  (∀ a b c, TemporalObject.__iter__ h = [a; b; c] →
     TemporalObject.__getitem__ h (TemporalObject.Int 1) = Ok (TemporalObject.State b) ∧
     TemporalObject.__getitem__ h (TemporalObject.Int (-1)) = Ok (TemporalObject.State b)).
Proof.
  apply (C4_negative_index _ (-1)). lia.
Defined.

(** C5, as amended.  Without a capacity ([None]) the buffer is unbounded:
    after [N] updates the length is [N] and every state is retained, in
    order.  With capacity [0] the buffer retains nothing and the length
    stays [0]. *)
Theorem C5_unbounded {St : Type} (depth : option Z) (h0 : TemporalObject.t St)
    (calls : list (call St)) :
  TemporalObject.__init__ depth = Ok h0 →
  (depth = None →
     TemporalObject.__len__ (run h0 calls) = Z.of_nat (length calls) ∧
     TemporalObject.__iter__ (run h0 calls) = object_state <$> calls) ∧
  (depth = Some 0%Z →
     TemporalObject.__len__ (run h0 calls) = 0%Z).
Proof.
  intros [_ ->]%init_inv. split; intros ->.
  - assert (TemporalObject.__iter__
              (run (TemporalObject.Build (Deque.Build (Z.to_nat <$> None) [])
                      (LimitedDict.Build (Z.to_nat <$> None) [])) calls)
            = object_state <$> calls) as Hiter by (by rewrite buffer_run).
    split; [|done]. by rewrite len_iter, Hiter, length_fmap.
  - rewrite len_iter, buffer_run by done. simpl.
    rewrite length_fmap, length_lastn. lia.
Qed.

(** C5 without a capacity, after three calls. *)
Lemma C5_unbounded_witness :
  let calls := [Call "A" None "u1"; Call "B" None "u2"; Call "C" None "u3"] in
  let h0 := TemporalObject.Build (Deque.Build None []) (LimitedDict.Build None []) in
  (@None Z = None →
     TemporalObject.__len__ (run h0 calls) = Z.of_nat (length calls) ∧
     TemporalObject.__iter__ (run h0 calls) = object_state <$> calls) ∧
  (@None Z = Some 0%Z →
     TemporalObject.__len__ (run h0 calls) = 0%Z).
Proof.
  apply (C5_unbounded None). reflexivity.
Defined.

(** C5 as stated fails for capacity [0]: after one update the length is
    [0], not [1], and the state is not retained. *)
Lemma C5_counterexample :
  ∃ h0 : TemporalObject.t string,
    TemporalObject.__init__ (Some 0%Z) = Ok h0 ∧
    let (_, h) := TemporalObject.update h0 "A" None "u1" in
    TemporalObject.__len__ h = 0%Z ∧
    TemporalObject.__len__ h ≠ 1%Z ∧
    TemporalObject.__iter__ h = [].
Proof.
  eexists. split; [reflexivity|]. simpl. split_and!; [reflexivity|discriminate|reflexivity].
Qed.

(** C6. Indexing by an integer whose absolute value is at least the length
    raises [IndexError], and [get] with such a relative index raises the same
    error instead of returning the default. *)
Theorem C6_out_of_range {V : Type} (h : TemporalObject.t (gmap string V))
    (i : Z) (key : string) (default : V) :
  (TemporalObject.__len__ h ≤ Z.abs i)%Z →
  TemporalObject.__getitem__ h (TemporalObject.Int i) = Raise IndexError ∧
  TemporalObject.get h key i default = Raise IndexError.
Proof.
  intros Hi. unfold TemporalObject.get. simpl.
  by rewrite getitem_int_out_of_range.
Qed.

(** C6 at position 5 of a buffer of length 2. *)
Lemma C6_out_of_range_witness :
  let h := TemporalObject.Build
             (Deque.Build None [{["k" := 1%Z]}; {["k" := 2%Z]}])
             (LimitedDict.Build None []) in
  TemporalObject.__getitem__ h (TemporalObject.Int 5) = Raise IndexError ∧
  TemporalObject.get h "k" 5 0%Z = Raise IndexError.
Proof.
  apply C6_out_of_range. vm_compute. discriminate.
Defined.

(** C7. For [n >= 1], [recent(n)] returns the [min(n, length)] most recently
    added states, oldest first, also when the buffer is empty or shorter
    than [n].  Indexing by a slice never raises [IndexError]: it returns a
    list unless the step is zero.  Its result is, for every slice, the
    standard slice [list_slice] of the states in iteration order, with
    out-of-range bounds clamped. *)
Theorem C7_recent {St : Type} (h : TemporalObject.t St) (n : Z) :
  (1 ≤ n)%Z →
  (∃ l, TemporalObject.recent h n = Ok (TemporalObject.States l) ∧
        l = lastn (Z.to_nat n) (TemporalObject.__iter__ h) ∧
        Z.of_nat (length l) = (n `min` TemporalObject.__len__ h)%Z) ∧
  (∀ s, TemporalObject.__getitem__ h (TemporalObject.Slc s) ≠ Raise IndexError) ∧
  (∀ s, step s ≠ Some 0%Z →
        ∃ l, TemporalObject.__getitem__ h (TemporalObject.Slc s) = Ok (TemporalObject.States l)) ∧
  (∀ s, TemporalObject.__getitem__ h (TemporalObject.Slc s) =
        (let! l := list_slice (TemporalObject.__iter__ h) s in
         Ok (TemporalObject.States l))).
Proof.
  intros Hn. split_and!.
  - eexists. split; [|split; [reflexivity|]].
    + unfold TemporalObject.recent. simpl. rewrite getitem_slice_from. simpl.
      do 2 f_equal. unfold lastn. f_equal.
      rewrite len_iter. destruct (Z.ltb_spec (- n) 0); lia.
    + rewrite length_lastn, len_iter. lia.
  - intros s. simpl. pose proof (getitem_slice_total h s) as Hs.
    destruct (TemporalObject.getitem_slice h s); simpl; [done|].
    destruct Hs as [-> _]. done.
  - intros s Hs. simpl. pose proof (getitem_slice_total h s) as Hs'.
    destruct (TemporalObject.getitem_slice h s); simpl; [by eexists|].
    by destruct Hs' as [_ ?].
  - intros s. simpl. by rewrite getitem_slice_list_slice.
Qed.

(** C7 for [recent(10)] on a buffer of two states. *)
Lemma C7_recent_witness :
  let h := TemporalObject.Build (Deque.Build None ["A"; "B"])
             (LimitedDict.Build None [("a", "A"); ("b", "B")]) in
  (∃ l, TemporalObject.recent h 10 = Ok (TemporalObject.States l) ∧
        l = lastn (Z.to_nat 10) (TemporalObject.__iter__ h) ∧
        Z.of_nat (length l) = (10 `min` TemporalObject.__len__ h)%Z) ∧
  (∀ s, TemporalObject.__getitem__ h (TemporalObject.Slc s) ≠ Raise IndexError) ∧
  (∀ s, step s ≠ Some 0%Z →
        ∃ l, TemporalObject.__getitem__ h (TemporalObject.Slc s) = Ok (TemporalObject.States l)) ∧
  (∀ s, TemporalObject.__getitem__ h (TemporalObject.Slc s) =
        (let! l := list_slice (TemporalObject.__iter__ h) s in
         Ok (TemporalObject.States l))).
Proof.
  apply C7_recent. lia.
Defined.

(** C8. Indexing by an identifier never raises; for an identifier that is
    not registered it returns [None], whereas indexing by the integer equal
    to the length raises [IndexError]. *)
Theorem C8_lookup_total {St : Type} (h : TemporalObject.t St) (id : string) :
  TemporalObject.__contains__ h id = false →
  TemporalObject.__getitem__ h (TemporalObject.Str id) = Ok TemporalObject.NoState ∧
  (∀ id', ∃ v, TemporalObject.__getitem__ h (TemporalObject.Str id') = Ok v) ∧
  TemporalObject.__getitem__ h (TemporalObject.Int (TemporalObject.__len__ h))
    = Raise IndexError.
Proof.
  intros Hid. split_and!.
  - simpl. unfold TemporalObject._get_by_temporal_id.
    by rewrite get_absent.
  - intros id'. simpl. by eexists.
  - simpl. rewrite getitem_int_out_of_range; [done|]. rewrite len_iter. lia.
Qed.

(** C8 for the identifier ["zz"] in a history that registered ["a"]. *)
Lemma C8_lookup_total_witness :
  let h := TemporalObject.Build (Deque.Build None ["A"])
             (LimitedDict.Build None [("a", "A")]) in
  TemporalObject.__getitem__ h (TemporalObject.Str "zz") = Ok TemporalObject.NoState ∧
  (∀ id', ∃ v, TemporalObject.__getitem__ h (TemporalObject.Str id') = Ok v) ∧
  TemporalObject.__getitem__ h (TemporalObject.Int (TemporalObject.__len__ h))
    = Raise IndexError.
Proof.
  apply C8_lookup_total. reflexivity.
Defined.

(** C9. [current] returns the last state of a non-empty buffer, which after
    an [update] that left the buffer non-empty is the state just added; on
    an empty buffer it raises [IndexError] and returns no default. *)
Theorem C9_current {St : Type} (h : TemporalObject.t St) (c : call St) :
  (TemporalObject.__len__ h ≠ 0%Z →
     ∃ x, last (TemporalObject.__iter__ h) = Some x ∧ TemporalObject.current h = Ok x) ∧
  (TemporalObject.__len__ (after h c) ≠ 0%Z →
     TemporalObject.current (after h c) = Ok (object_state c)) ∧
  (TemporalObject.__len__ h = 0%Z → TemporalObject.current h = Raise IndexError).
Proof.
  assert (Hcur : ∀ h' : TemporalObject.t St,
            TemporalObject.current h' =
              match last (TemporalObject.__iter__ h') with
              | Some x => Ok x
              | None => Raise IndexError
              end) by (intros h'; apply deque_getitem_last).
  split_and!.
  - intros Hlen. rewrite Hcur, len_iter in *.
    destruct (TemporalObject.__iter__ h) as [|x l] using rev_ind; [done|].
    rewrite last_snoc. by eexists.
  - intros Hlen. rewrite Hcur. rewrite len_iter in Hlen.
    unfold TemporalObject.__iter__ in *. rewrite buffer_after in *.
    unfold Deque.append in *. simpl in *.
    destruct (Deque.maxlen (TemporalObject._buffer h)) as [m|].
    + destruct (m <? _).
      * destruct (Deque.items (TemporalObject._buffer h)) as [|y l]; [done|].
        simpl. by rewrite last_snoc.
      * by rewrite last_snoc.
    + by rewrite last_snoc.
  - intros Hlen. rewrite Hcur. rewrite len_iter in Hlen.
    destruct (TemporalObject.__iter__ h); [done|simpl in Hlen; lia].
Qed.

(** C9 on the buffer [["A"; "B"]], then after one more update. *)
Lemma C9_current_witness :
  let h := TemporalObject.Build (Deque.Build None ["A"; "B"])
             (LimitedDict.Build None [("a", "A"); ("b", "B")]) in
  let c := Call "C" None "u" in
  (∃ x, last (TemporalObject.__iter__ h) = Some x ∧ TemporalObject.current h = Ok x) ∧
  TemporalObject.current (after h c) = Ok "C".
Proof.
  set (h := TemporalObject.Build (Deque.Build None ["A"; "B"])
              (LimitedDict.Build None [("a", "A"); ("b", "B")])).
  set (c := Call "C" None "u").
  destruct (C9_current h c) as (H1 & H2 & _).
  split; [apply H1|apply H2]; vm_compute; discriminate.
Defined.

(** C10. [recent(0)] returns every retained state, oldest first: the slice
    starts at [-0 = 0]. *)
Theorem C10_recent_zero {St : Type} (h : TemporalObject.t St) :
  TemporalObject.recent h 0 = Ok (TemporalObject.States (TemporalObject.__iter__ h)).
Proof.
  unfold TemporalObject.recent. simpl. by rewrite getitem_slice_from.
Qed.


(** * Further properties of [TemporalObject] *)

(** ** One [update] seen from the reading side *)

Section one_update.
Context {St : Type}.
Implicit Types (h : TemporalObject.t St) (c : call St).

(** After an [update] the states read back from the most recent are the new
    state followed by the former ones, up to the new length. *)
Lemma iter_after_reverse h c (j : nat) :
  j < length (TemporalObject.__iter__ (after h c)) →
  reverse (TemporalObject.__iter__ (after h c)) !! j =
    (object_state c :: reverse (TemporalObject.__iter__ h)) !! j.
Proof.
  unfold TemporalObject.__iter__. rewrite buffer_after. unfold Deque.append. simpl.
  set (l := Deque.items (TemporalObject._buffer h)).
  assert (Htail : j < length (tail (l ++ [object_state c])) →
            reverse (tail (l ++ [object_state c])) !! j =
              (object_state c :: reverse l) !! j).
  { rewrite <- reverse_snoc. destruct (l ++ [object_state c]) as [|y l']; simpl; [lia|].
    intros Hj. rewrite reverse_cons, lookup_app_l; [done|].
    by rewrite length_reverse. }
  destruct (Deque.maxlen (TemporalObject._buffer h)) as [m|].
  - destruct (m <? _); [done|]. intros _. by rewrite reverse_snoc.
  - intros _. by rewrite reverse_snoc.
Qed.

Lemma length_after h c :
  length (TemporalObject.__iter__ (after h c)) =
    match Deque.maxlen (TemporalObject._buffer h) with
    | Some m =>
        if decide (m ≤ length (TemporalObject.__iter__ h))
        then length (TemporalObject.__iter__ h)
        else S (length (TemporalObject.__iter__ h))
    | None => S (length (TemporalObject.__iter__ h))
    end.
Proof.
  unfold TemporalObject.__iter__. rewrite buffer_after. unfold Deque.append. simpl.
  set (l := Deque.items (TemporalObject._buffer h)).
  assert (length (l ++ [object_state c]) = S (length l)) as Hl
    by (rewrite length_app; simpl; lia).
  destruct (Deque.maxlen (TemporalObject._buffer h)) as [m|]; [|done].
  rewrite Hl. destruct (Nat.ltb_spec m (S (length l))); case_decide; try lia.
  destruct (l ++ [object_state c]); simpl in *; lia.
Qed.
End one_update.

(** X1. [get(key, i, default)] reads the field [key] of the state at recency
    position [|i|]: the value of the field when the state has it, [default]
    when it has not, and [IndexError] when there is no such position. *)
Theorem X1_get_field {V : Type} (h : TemporalObject.t (gmap string V))
    (key : string) (i : Z) (dflt : V) :
  TemporalObject.get h key i dflt =
    match reverse (TemporalObject.__iter__ h) !! Z.to_nat (Z.abs i) with
    | Some state => Ok (default dflt (state !! key))
    | None => Raise IndexError
    end.
Proof.
  unfold TemporalObject.get. rewrite getitem_int_reverse.
  destruct (reverse _ !! _) as [state|]; simpl; [|done].
  by destruct (state !! key) as [v|].
Qed.

(** X2. The constructor fails exactly when [temporal_depth] is an integer
    that is negative or does not fit a [Py_ssize_t]: with [OverflowError]
    when it is below [-2^63] or above [2^63 - 1], with [ValueError] when it
    is negative and fits.  A new object is empty: its length is [0],
    iteration yields nothing, [current] raises [IndexError], [recent] yields
    the empty list and no identifier is contained. *)
Theorem X2_init {St : Type} (depth : option Z) :
  match TemporalObject.__init__ (St:=St) depth with
  | Ok h =>
      (∀ z, depth = Some z → (0 ≤ z ≤ 2 ^ 63 - 1)%Z) ∧
      TemporalObject.__len__ h = 0%Z ∧
      TemporalObject.__iter__ h = [] ∧
      TemporalObject.current h = Raise IndexError ∧
      (∀ n, TemporalObject.recent h n = Ok (TemporalObject.States [])) ∧
      (∀ id, TemporalObject.__contains__ h id = false)
  | Raise e =>
      ∃ z, depth = Some z ∧
        (e = OverflowError ∧ (z < - 2 ^ 63 ∨ 2 ^ 63 - 1 < z)%Z ∨
         e = ValueError ∧ (- 2 ^ 63 ≤ z < 0)%Z)
  end.
Proof.
  assert (Hmax : Deque.PY_SSIZE_T_MAX = (2 ^ 63 - 1)%Z) by reflexivity.
  destruct (TemporalObject.__init__ depth) as [h|e] eqn:Hinit.
  - assert (Hfit : ∀ z, depth = Some z → (0 ≤ z ≤ 2 ^ 63 - 1)%Z).
    { intros z ->. unfold TemporalObject.__init__, Deque.new in Hinit.
      destruct (Z.ltb_spec z (- Deque.PY_SSIZE_T_MAX - 1)); simpl in Hinit; [done|].
      destruct (Z.ltb_spec Deque.PY_SSIZE_T_MAX z); simpl in Hinit; [done|].
      destruct (Z.ltb_spec z 0); simpl in Hinit; [done|]. lia. }
    apply init_inv in Hinit as [_ ->]. split_and!; try done.
    intros n. unfold TemporalObject.recent. simpl.
    rewrite getitem_slice_from. unfold TemporalObject.__iter__. simpl.
    by rewrite drop_nil.
  - unfold TemporalObject.__init__, Deque.new in Hinit.
    destruct depth as [z|]; simpl in Hinit; [|done]. exists z. split; [done|].
    destruct (Z.ltb_spec z (- Deque.PY_SSIZE_T_MAX - 1)); simpl in Hinit.
    { injection Hinit as <-. left. split; [done|lia]. }
    destruct (Z.ltb_spec Deque.PY_SSIZE_T_MAX z); simpl in Hinit.
    { injection Hinit as <-. left. split; [done|lia]. }
    destruct (Z.ltb_spec z 0); simpl in Hinit; [|done].
    injection Hinit as <-. right. split; [done|lia].
Qed.

(** X3. Indexing by an integer [i] with [|i|] below the length succeeds: it
    returns the state that iteration yields at position [len - 1 - |i|]. *)
Theorem X3_index_in_range {St : Type} (h : TemporalObject.t St) (i : Z) :
  (Z.abs i < TemporalObject.__len__ h)%Z →
  ∃ x, TemporalObject.__getitem__ h (TemporalObject.Int i) = Ok (TemporalObject.State x) ∧
       TemporalObject.__iter__ h !! Z.to_nat (TemporalObject.__len__ h - 1 - Z.abs i)
         = Some x.
Proof.
  intros Hi. rewrite len_iter in *. simpl. rewrite getitem_int_reverse.
  rewrite reverse_lookup by lia.
  replace (Z.to_nat (Z.of_nat (length (TemporalObject.__iter__ h)) - 1 - Z.abs i))
    with (length (TemporalObject.__iter__ h) - S (Z.to_nat (Z.abs i))) by lia.
  destruct (lookup_lt_is_Some_2 (TemporalObject.__iter__ h)
              (length (TemporalObject.__iter__ h) - S (Z.to_nat (Z.abs i)))) as [x Hx];
    [lia|].
  rewrite Hx. by exists x.
Qed.

(** X3 at index [-2] of the buffer [["A"; "B"; "C"]]. *)
Lemma X3_index_in_range_witness :
  let h := TemporalObject.Build (Deque.Build None ["A"; "B"; "C"])
             (LimitedDict.Build None []) in
  ∃ x, TemporalObject.__getitem__ h (TemporalObject.Int (-2)) = Ok (TemporalObject.State x) ∧
       TemporalObject.__iter__ h !! Z.to_nat (TemporalObject.__len__ h - 1 - Z.abs (-2))
         = Some x.
Proof.
  apply (X3_index_in_range _ (-2)). vm_compute. reflexivity.
Defined.

(** X4. [current] is indexing by [0]: both return the most recent state, and
    both raise [IndexError] on an empty buffer. *)
Theorem X4_current_is_index_zero {St : Type} (h : TemporalObject.t St) :
  TemporalObject.__getitem__ h (TemporalObject.Int 0) =
    (let! s := TemporalObject.current h in Ok (TemporalObject.State s)).
Proof.
  simpl. rewrite getitem_int_reverse. unfold TemporalObject.current.
  rewrite deque_getitem_last. simpl.
  rewrite <- head_lookup, head_reverse. unfold TemporalObject.__iter__.
  by destruct (last _).
Qed.

(** X5. An [update] moves every state one recency position back: the state
    read at position [k + 1] afterwards is the state read at position [k]
    before, for every position [k + 1] that still exists. *)
Theorem X5_update_shifts {St : Type} (h : TemporalObject.t St) (c : call St) (k : Z) :
  (0 ≤ k)%Z →
  (k + 1 < TemporalObject.__len__ (after h c))%Z →
  TemporalObject.__getitem__ (after h c) (TemporalObject.Int (k + 1)) =
    TemporalObject.__getitem__ h (TemporalObject.Int k).
Proof.
  intros Hk Hlen. rewrite len_iter in Hlen. simpl.
  rewrite !getitem_int_reverse, iter_after_reverse by lia.
  replace (Z.to_nat (Z.abs (k + 1))) with (S (Z.to_nat (Z.abs k))) by lia.
  done.
Qed.

(** X5 on a full buffer of capacity 3, at [k = 0]. *)
Lemma X5_update_shifts_witness :
  let h := TemporalObject.Build (Deque.Build (Some 3) ["A"; "B"; "C"])
             (LimitedDict.Build (Some 3) [("a", "A"); ("b", "B"); ("c", "C")]) in
  let c := Call "D" (Some "d") "u" in
  TemporalObject.__getitem__ (after h c) (TemporalObject.Int (0 + 1)) =
    TemporalObject.__getitem__ h (TemporalObject.Int 0).
Proof.
  apply X5_update_shifts; [lia|]. vm_compute. reflexivity.
Defined.

(** X6. An [update] never shortens the history: the length grows by one
    when the buffer is unbounded or below its capacity, and stays the same
    otherwise. *)
Theorem X6_len_after_update {St : Type} (h : TemporalObject.t St) (c : call St) :
  TemporalObject.__len__ (after h c) =
    match Deque.maxlen (TemporalObject._buffer h) with
    | Some m =>
        if (Z.of_nat m <=? TemporalObject.__len__ h)%Z
        then TemporalObject.__len__ h
        else (TemporalObject.__len__ h + 1)%Z
    | None => (TemporalObject.__len__ h + 1)%Z
    end.
Proof.
  rewrite !len_iter, length_after.
  destruct (Deque.maxlen (TemporalObject._buffer h)) as [m|]; [|lia].
  destruct (Z.leb_spec (Z.of_nat m) (Z.of_nat (length (TemporalObject.__iter__ h))));
    case_decide; lia.
Qed.

(** ** Slices against iteration *)

Section slice_results.
Context {St : Type}.
Implicit Types (h : TemporalObject.t St) (d : Deque.deque St).

Lemma deque_getitem_Ok d (i : Z) x :
  Deque.getitem d i = Ok x → x ∈ Deque.items d.
Proof.
  unfold Deque.getitem. destruct (_ || _); [done|].
  destruct (_ !! _) as [y|] eqn:Hy; [|done].
  intros [= <-]. by eapply list_elem_of_lookup_2.
Qed.

Lemma mapM_getitem_Ok d (l : list Z) (r : list St) :
  mapM (Deque.getitem d) l = Ok r →
  length r = length l ∧ ∀ x, x ∈ r → x ∈ Deque.items d.
Proof.
  revert r. induction l as [|i l IH]; intros r; simpl.
  - intros [= <-]. split; [done|]. by intros x ?%elem_of_nil.
  - destruct (Deque.getitem d i) as [y|] eqn:Hy; simpl; [|done].
    destruct (mapM _ l) as [ys|]; simpl; [|done].
    intros [= <-]. destruct (IH ys eq_refl) as [Hlen Hin]. split; [simpl; lia|].
    intros x [->|Hx]%elem_of_cons; [by eapply deque_getitem_Ok|by apply Hin].
Qed.

Lemma range_step1_empty (a b : Z) : (b ≤ a)%Z → range a b 1 = [].
Proof.
  intros Hab. unfold range, range_len. simpl.
  by destruct (Z.ltb_spec a b); [lia|].
Qed.

Lemma range_len_le (a b st n : Z) :
  (0 < st)%Z ∧ (0 ≤ a ≤ n)%Z ∧ (0 ≤ b ≤ n)%Z ∨
  (st < 0)%Z ∧ (-1 ≤ a ≤ n - 1)%Z ∧ (-1 ≤ b ≤ n - 1)%Z →
  (Z.of_nat (range_len a b st) ≤ n)%Z.
Proof.
  unfold range_len. intros [(Hst & Ha & Hb)|(Hst & Ha & Hb)].
  - destruct (Z.ltb_spec 0 st); [|lia].
    destruct (Z.ltb_spec a b); [|lia].
    assert ((b - a - 1) / st ≤ b - a - 1)%Z by (apply Z.div_le_upper_bound; nia).
    assert (0 ≤ (b - a - 1) / st)%Z by (apply Z.div_pos; lia).
    lia.
  - destruct (Z.ltb_spec 0 st); [lia|].
    destruct (Z.ltb_spec b a); [|lia].
    assert ((a - b - 1) / - st ≤ a - b - 1)%Z by (apply Z.div_le_upper_bound; nia).
    assert (0 ≤ (a - b - 1) / - st)%Z by (apply Z.div_pos; lia).
    lia.
Qed.

(** [recent(n)] for [n >= 1] is the last [n] states of the buffer. *)
Lemma recent_lastn h (n : Z) :
  (1 ≤ n)%Z →
  TemporalObject.recent h n =
    Ok (TemporalObject.States (lastn (Z.to_nat n) (TemporalObject.__iter__ h))).
Proof.
  intros Hn. unfold TemporalObject.recent. simpl. rewrite getitem_slice_from. simpl.
  do 2 f_equal. unfold lastn. f_equal.
  rewrite len_iter. destruct (Z.ltb_spec (- n) 0); lia.
Qed.
End slice_results.

(** X7. The full slice [self[:]] returns the states in iteration order,
    oldest first, and the reversed slice [self[::-1]] returns them most
    recent first, which is the order that integer indexing counts in. *)
Theorem X7_full_and_reversed_slice {St : Type} (h : TemporalObject.t St) :
  TemporalObject.__getitem__ h (TemporalObject.Slc (Slice None None None)) =
    Ok (TemporalObject.States (TemporalObject.__iter__ h)) ∧
  TemporalObject.__getitem__ h (TemporalObject.Slc (Slice None None (Some (-1)%Z))) =
    Ok (TemporalObject.States (reverse (TemporalObject.__iter__ h))) ∧
  (∀ i, TemporalObject.__getitem__ h (TemporalObject.Int i) =
          match reverse (TemporalObject.__iter__ h) !! Z.to_nat (Z.abs i) with
          | Some x => Ok (TemporalObject.State x)
          | None => Raise IndexError
          end).
Proof.
  split_and!.
  - simpl. unfold TemporalObject.getitem_slice, slice_indices, Deque.len,
      TemporalObject.__iter__. simpl.
    set (l := Deque.items (TemporalObject._buffer h)).
    pose proof (range_step1 0 (length l) ltac:(lia)) as Hr.
    change (Z.of_nat 0) with 0%Z in Hr. rewrite Hr.
    rewrite mapM_getitem_seq by (fold l; lia). fold l. simpl.
    by rewrite Nat.sub_0_r, take_ge.
  - simpl. unfold TemporalObject.getitem_slice, slice_indices, Deque.len,
      TemporalObject.__iter__. simpl.
    set (l := Deque.items (TemporalObject._buffer h)).
    rewrite (mapM_getitem_lookup _ _ (reverse l)); [done|..].
    + unfold range. rewrite length_fmap, length_seq, length_reverse.
      unfold range_len. simpl.
      destruct (Z.ltb_spec (-1) (Z.of_nat (length l) - 1)); [|lia].
      rewrite Z.div_1_r. lia.
    + intros j i x Hj [Hx Hlt]%reverse_lookup_Some. fold l.
      unfold range in Hj. rewrite list_lookup_fmap in Hj.
      destruct (seq _ _ !! j) as [k|] eqn:Hk; [|done].
      apply lookup_seq in Hk as [-> _]. simpl in Hj. injection Hj as <-.
      split; [lia|].
      by replace (Z.to_nat (Z.of_nat (length l) - 1 + Z.of_nat j * -1))
        with (length l - S j) by lia.
  - intros i. simpl. rewrite getitem_int_reverse. by destruct (_ !! _).
Qed.

(** X8. Indexing by a slice raises an error exactly when the step is [0],
    and the error is then [ValueError]. *)
Theorem X8_slice_zero_step {St : Type} (h : TemporalObject.t St) (s : slice) :
  (TemporalObject.__getitem__ h (TemporalObject.Slc s) = Raise ValueError
     ↔ step s = Some 0%Z) ∧
  (∀ e, TemporalObject.__getitem__ h (TemporalObject.Slc s) = Raise e →
        e = ValueError ∧ step s = Some 0%Z).
Proof.
  simpl. pose proof (getitem_slice_total h s) as Hs.
  destruct (TemporalObject.getitem_slice h s) as [l|e]; simpl.
  - split; [|done]. split; [done|]. intros Hz. by destruct Hs.
  - destruct Hs as [-> Hz]. split; [done|]. by intros e [= <-].
Qed.

(** X9. For a negative [n], [recent(n)] is [self[|n|:]]: it returns the
    retained states without the [|n|] oldest, oldest first, and the empty
    list when there are at most [|n|] of them. *)
Theorem X9_recent_negative {St : Type} (h : TemporalObject.t St) (n : Z) :
  (n < 0)%Z →
  TemporalObject.recent h n =
    Ok (TemporalObject.States (drop (Z.to_nat (- n)) (TemporalObject.__iter__ h))).
Proof.
  intros Hn. unfold TemporalObject.recent. simpl. rewrite getitem_slice_from.
  by destruct (Z.ltb_spec (- n) 0); [lia|].
Qed.

(** X9 for [recent(-1)] on the buffer [["A"; "B"; "C"]]. *)
Lemma X9_recent_negative_witness :
  let h := TemporalObject.Build (Deque.Build None ["A"; "B"; "C"])
             (LimitedDict.Build None []) in
  TemporalObject.recent h (-1) =
    Ok (TemporalObject.States (drop (Z.to_nat (- (-1))) (TemporalObject.__iter__ h))).
Proof.
  apply X9_recent_negative. lia.
Defined.

(** X10. After any sequence of [update] calls on a new object, [recent(n)]
    for [n >= 1] returns the states of the last [n] calls that the capacity
    still admits, oldest first, whatever identifiers the calls used. *)
Theorem X10_recent_after_updates {St : Type} (depth : option Z)
    (h0 : TemporalObject.t St) (calls : list (call St)) (n : Z) :
  TemporalObject.__init__ depth = Ok h0 →
  (1 ≤ n)%Z →
  TemporalObject.recent (run h0 calls) n =
    Ok (TemporalObject.States
          (object_state <$> lastn (Z.to_nat n) (window (Z.to_nat <$> depth) calls))).
Proof.
  intros [_ ->]%init_inv Hn. rewrite recent_lastn by done.
  rewrite buffer_run by done. simpl. by rewrite fmap_lastn.
Qed.

(** X10 for [recent(2)] after four calls at capacity 3. *)
Lemma X10_recent_after_updates_witness :
  let h0 := TemporalObject.Build (Deque.Build (Some 3) []) (LimitedDict.Build (Some 3) []) in
  let calls := [Call "A" (Some "x") "u1"; Call "B" (Some "x") "u2";
                Call "C" None "u3"; Call "D" None "u4"] in
  TemporalObject.recent (run h0 calls) 2 =
    Ok (TemporalObject.States
          (object_state <$> lastn (Z.to_nat 2) (window (Z.to_nat <$> Some 3%Z) calls))).
Proof.
  apply (X10_recent_after_updates (Some 3%Z)); [reflexivity|lia].
Defined.

(** X11. For bounds [0 <= a] and [0 <= b], the slice [self[a:b]] is that of
    a Python list: the first [b] states in iteration order without the first
    [a]; bounds past the end are clamped. *)
Theorem X11_slice_positive_bounds {St : Type} (h : TemporalObject.t St) (a b : Z) :
  (0 ≤ a)%Z →
  (0 ≤ b)%Z →
  TemporalObject.__getitem__ h (TemporalObject.Slc (Slice (Some a) (Some b) None)) =
    Ok (TemporalObject.States
          (drop (Z.to_nat a) (take (Z.to_nat b) (TemporalObject.__iter__ h)))).
Proof.
  intros Ha Hb. simpl.
  unfold TemporalObject.getitem_slice, slice_indices, Deque.len, TemporalObject.__iter__.
  simpl. set (l := Deque.items (TemporalObject._buffer h)).
  destruct (Z.ltb_spec a 0); [lia|]. destruct (Z.ltb_spec b 0); [lia|].
  set (a' := Z.to_nat a `min` length l). set (b' := Z.to_nat b `min` length l).
  assert ((if (Z.of_nat (length l) <? a)%Z then Z.of_nat (length l) else a)
          = Z.of_nat a') as ->.
  { unfold a'. destruct (Z.ltb_spec (Z.of_nat (length l)) a); lia. }
  assert ((if (Z.of_nat (length l) <? b)%Z then Z.of_nat (length l) else b)
          = Z.of_nat b') as ->.
  { unfold b'. destruct (Z.ltb_spec (Z.of_nat (length l)) b); lia. }
  assert (take (Z.to_nat b) l = take b' l) as ->.
  { unfold b'. destruct (decide (Z.to_nat b ≤ length l)).
    - f_equal. lia.
    - rewrite !take_ge; [done|lia|lia]. }
  destruct (decide (a' ≤ b')) as [Hab|Hab].
  - rewrite range_step1 by done.
    rewrite mapM_getitem_seq by (fold l; unfold a', b' in *; lia). fold l. simpl.
    do 2 f_equal. rewrite take_drop_commute.
    replace (a' + (b' - a')) with b' by lia.
    unfold a'. destruct (decide (Z.to_nat a ≤ length l)).
    + f_equal. lia.
    + rewrite !drop_ge; [done|rewrite length_take; lia..].
  - rewrite range_step1_empty by lia. simpl. do 2 f_equal.
    rewrite drop_ge; [done|]. rewrite length_take. unfold a', b' in *. lia.
Qed.

(** X11 for [self[1:10]] on the buffer [["A"; "B"; "C"]]. *)
Lemma X11_slice_positive_bounds_witness :
  let h := TemporalObject.Build (Deque.Build None ["A"; "B"; "C"])
             (LimitedDict.Build None []) in
  TemporalObject.__getitem__ h (TemporalObject.Slc (Slice (Some 1%Z) (Some 10%Z) None)) =
    Ok (TemporalObject.States
          (drop (Z.to_nat 1) (take (Z.to_nat 10) (TemporalObject.__iter__ h)))).
Proof.
  apply X11_slice_positive_bounds; lia.
Defined.

(** X12. Whatever the slice, a list that it returns holds only states that
    are in the buffer and is no longer than the buffer. *)
Theorem X12_slice_within_buffer {St : Type} (h : TemporalObject.t St) (s : slice)
    (l : list St) :
  TemporalObject.__getitem__ h (TemporalObject.Slc s) = Ok (TemporalObject.States l) →
  (∀ x, x ∈ l → x ∈ TemporalObject.__iter__ h) ∧
  (Z.of_nat (length l) ≤ TemporalObject.__len__ h)%Z.
Proof.
  simpl. unfold TemporalObject.getitem_slice.
  pose proof (slice_indices_bounds s (Deque.len (TemporalObject._buffer h))
                ltac:(unfold Deque.len; lia)) as Hs.
  destruct (slice_indices _ _) as [[[a b] st]|e]; simpl; [|done].
  destruct Hs as [_ Hb].
  destruct (mapM _ _) as [r|] eqn:Hr; simpl; [|done].
  intros [= <-]. apply mapM_getitem_Ok in Hr as [Hlen Hin]. split; [done|].
  rewrite Hlen. unfold range. rewrite length_fmap, length_seq.
  by apply range_len_le.
Qed.

(** X12 for [self[::2]] on the buffer [["A"; "B"; "C"]]. *)
Lemma X12_slice_within_buffer_witness :
  let h := TemporalObject.Build (Deque.Build None ["A"; "B"; "C"])
             (LimitedDict.Build None []) in
  (∀ x, x ∈ ["A"; "C"] → x ∈ TemporalObject.__iter__ h) ∧
  (Z.of_nat (length ["A"; "C"]) ≤ TemporalObject.__len__ h)%Z.
Proof.
  apply (X12_slice_within_buffer _ (Slice None None (Some 2%Z))). reflexivity.
Defined.

(** X13. Right after [update(state)], [get(key)] reads the field [key] of
    that state, or returns the default when the state has no such field,
    provided the buffer retains anything at all. *)
Theorem X13_get_after_update {V : Type} (h : TemporalObject.t (gmap string V))
    (c : call (gmap string V)) (key : string) (dflt : V) :
  TemporalObject.__len__ (after h c) ≠ 0%Z →
  TemporalObject.get (after h c) key 0 dflt = Ok (default dflt (object_state c !! key)).
Proof.
  intros Hlen. rewrite len_iter in Hlen. unfold TemporalObject.get.
  rewrite getitem_int_reverse, iter_after_reverse by (simpl; lia). simpl.
  by destruct (object_state c !! key).
Qed.

(** X13 after [update({"k": 7})] on a new unbounded object. *)
Lemma X13_get_after_update_witness :
  let h := TemporalObject.Build (Deque.Build None []) (LimitedDict.Build None []) in
  let c := Call {["k" := 7%Z]} None "u" in
  TemporalObject.get (after h c) "k" 0 0%Z = Ok (default 0%Z (object_state c !! "k")).
Proof.
  apply X13_get_after_update. vm_compute. discriminate.
Defined.

(** ** Writing an identifier and reading it back *)

Section set_then_get.
Context {St : Type}.
Implicit Types d : LimitedDict.t St.

Lemma find_overwritten (l : list (string * St)) k v :
  k ∈ l.*1 →
  ∃ i, list_find (λ e, e.1 = k)
         ((λ e, if decide (e.1 = k) then (k, v) else e) <$> l) = Some (i, (k, v)).
Proof.
  induction l as [|e l IH]; simpl; [by intros ?%elem_of_nil|].
  intros Hin. destruct (decide (e.1 = k)) as [He|He]; simpl.
  - rewrite decide_True by done. by exists 0.
  - rewrite decide_False by done.
    apply elem_of_cons in Hin as [Hin|Hin]; [congruence|].
    destruct (IH Hin) as [i Hi]. exists (S i). unfold fmap in Hi. by rewrite Hi.
Qed.

(** Setting a key makes it contained and makes [get] return the value set,
    whether the key was new or not. *)
Lemma get_setitem d k v dflt :
  LimitedDict.contains (LimitedDict.setitem d k v) k = true ∧
  LimitedDict.get (LimitedDict.setitem d k v) k dflt = Some v.
Proof.
  destruct (LimitedDict.contains d k) eqn:Hk.
  - unfold LimitedDict.setitem. rewrite Hk. apply contains_true in Hk. split.
    + apply contains_true. unfold LimitedDict.keys in *. simpl.
      rewrite <- list_fmap_compose.
      erewrite list_fmap_ext; [exact Hk|].
      intros _ e _. simpl. by case_decide.
    + unfold LimitedDict.get. simpl.
      by destruct (find_overwritten (LimitedDict.entries d) k v Hk) as [i ->].
  - apply contains_false, (holds_setitem_new d k v) in Hk.
    destruct Hk as (older & younger & Hd & Hold & _). split.
    + apply contains_true. unfold LimitedDict.keys. rewrite Hd, fmap_app.
      apply elem_of_app. right. left.
    + unfold LimitedDict.get. rewrite Hd, list_find_app_r.
      * simpl. by rewrite decide_True.
      * apply list_find_None, Forall_forall. intros e He <-.
        apply Hold, list_elem_of_fmap. by exists e.
Qed.
End set_then_get.

(** X14. Right after [update(state, id)], for any capacity and also when the
    identifier was used before, the identifier that [update] returned is
    contained and indexing by it returns [state].  ([LimitedDict] as
    modelled above.) *)
Theorem X14_update_then_lookup {St : Type} (h : TemporalObject.t St) (state : St)
    (tid : option string) (u : string) :
  let r := TemporalObject.update h state tid u in
  r.1 = default u tid ∧
  TemporalObject.__contains__ r.2 r.1 = true ∧
  TemporalObject.__getitem__ r.2 (TemporalObject.Str r.1) = Ok (TemporalObject.State state).
Proof.
  simpl. split; [by destruct tid|].
  unfold TemporalObject.__contains__, TemporalObject._get_by_temporal_id. simpl.
  destruct (get_setitem (TemporalObject._id_index h)
              match tid with Some id => id | None => u end state None) as [Hc Hg].
  by rewrite Hc, Hg.
Qed.


(** X16. With a positive capacity [C] and pairwise distinct identifiers, a
    state followed by at least [C] further [update] calls has been evicted
    from the identifier index too: its identifier is no longer contained and
    indexing by it returns [None] instead of raising.  ([LimitedDict] as
    modelled above.) *)
Theorem X16_evicted_identifier {St : Type} (C : Z) (h0 : TemporalObject.t St)
    (pre : list (call St)) (c : call St) (post : list (call St)) :
  TemporalObject.__init__ (Some C) = Ok h0 →
  (0 < C)%Z →
  NoDup (call_id <$> pre ++ c :: post) →
  (C ≤ Z.of_nat (length post))%Z →
  let h := run h0 (pre ++ c :: post) in
  TemporalObject.__contains__ h (call_id c) = false ∧
  TemporalObject.__getitem__ h (TemporalObject.Str (call_id c)) = Ok TemporalObject.NoState.
Proof.
  intros [_ ->]%init_inv HC Hnd Hpost h.
  assert (Hc : TemporalObject.__contains__ h (call_id c) = false).
  { unfold TemporalObject.__contains__. apply contains_false.
    unfold LimitedDict.keys, h. rewrite id_index_run by done.
    unfold LimitedDict.bound. simpl.
    destruct (Z.to_nat C) as [|m] eqn:Hm; [lia|]. rewrite <- Hm. simpl.
    rewrite <- list_fmap_compose.
    assert (lastn (Z.to_nat C) (pre ++ c :: post) = lastn (Z.to_nat C) post) as ->.
    { unfold lastn. rewrite length_app. simpl. rewrite drop_app_ge by lia.
      replace (length pre + S (length post) - Z.to_nat C - length pre)
        with (S (length post - Z.to_nat C)) by lia.
      done. }
    rewrite fmap_app in Hnd. simpl in Hnd.
    apply NoDup_app in Hnd as (_ & _ & Hnd). apply NoDup_cons in Hnd as [Hnew _].
    intros Hin. apply Hnew. revert Hin.
    apply (fmap_subseteq (call_id (St:=St))). apply subseteq_drop. }
  split; [done|]. simpl. unfold TemporalObject._get_by_temporal_id.
  by rewrite get_absent.
Qed.

(** X16 at capacity 2: the first of three calls. *)
Lemma X16_evicted_identifier_witness :
  let h0 := TemporalObject.Build (Deque.Build (Some 2) []) (LimitedDict.Build (Some 2) []) in
  let c := Call "A" (Some "a") "u1" in
  let post := [Call "B" (Some "b") "u2"; Call "C" None "u3"] in
  let h := run h0 ([] ++ c :: post) in
  TemporalObject.__contains__ h (call_id c) = false ∧
  TemporalObject.__getitem__ h (TemporalObject.Str (call_id c)) = Ok TemporalObject.NoState.
Proof.
  apply (X16_evicted_identifier 2); [reflexivity|lia| |simpl; lia].
  apply (bool_decide_unpack _). vm_compute. exact I.
Defined.
